(** * Spatial-media MPEG-4 box engine: SA3D box and Mpeg4Container

    Shallow embedding of [SA3DBox] (load / create / save) and of
    [Mpeg4Container] (load / merge / save), with the fixed-width
    big-endian stream helpers both rely on.

    Conventions.
    - A C++ unsigned integer is a [Z]; arithmetic on a [uint32_t] wraps
      through [Int.u32], and a value passed as [int32_t] is the signed
      reinterpretation [Int.i32].
    - A byte is a [Z] in [0, 256); a four-byte tag is a [list Z].
    - An input [std::fstream] is its content plus the get position; an
      output stream is the list of bytes written so far.
    - A [Box *] stored inside [Mpeg4Container] is an index into the child
      list ([None] is the null pointer): the child list owns the boxes. *)

From Stdlib Require Import String Ascii ZArith List Lia Bool.
From Stdlib Require Import QArith DecimalString Sorted.
Import ListNotations.
Local Open Scope Z_scope.

(* ------------------------------------------------------------------ *)
(** ** Machine integers *)

Module Int.

Definition u32 (z : Z) : Z := z mod 2 ^ 32.

(** Reinterpretation of the low 32 bits as a two's-complement value. *)
Definition i32 (z : Z) : Z :=
  let r := z mod 2 ^ 32 in
  if r <? 2 ^ 31 then r else r - 2 ^ 32.

Definition is_u32 (z : Z) : Prop := 0 <= z < 2 ^ 32.

End Int.

(* ------------------------------------------------------------------ *)
(** ** Tags and raw memory comparison *)

(** The bytes of a string literal. *)
Definition bytes_of_string (s : string) : list Z :=
  map (fun a => Z.of_nat (nat_of_ascii a)) (list_ascii_of_string s).

(** [memcmp a b n]: zero iff the first [n] bytes agree, otherwise the
    difference of the first pair of bytes that differ.  Bytes missing from
    a short operand read as 0. *)
Fixpoint memcmp (a b : list Z) (n : nat) : Z :=
  match n with
  | O => 0
  | S k =>
      let x := hd 0 a in
      let y := hd 0 b in
      if x =? y then memcmp (tl a) (tl b) k else x - y
  end.

Module constants.

(** Modelled from the spec: constants.h is not part of the sources; the
    tags are the four ASCII characters the spec names, held as [char]
    sequences (they are copied with [memcpy (m_name, TAG, 4)]). *)
Definition TAG_SA3D : list Z := bytes_of_string "SA3D".
Definition TAG_MDAT : list Z := bytes_of_string "mdat".

(** [sizeof ( *constants::TAG_SA3D )]: the size of one [char]. *)
Definition sizeof_deref_TAG_SA3D : nat := 1.

End constants.

(* ------------------------------------------------------------------ *)
(** ** Binary I/O primitives *)

Module IO.

(** Big-endian digits, most significant byte first. *)
Fixpoint be_split (n : nat) (v : Z) : list Z :=
  match n with
  | O => []
  | S k => (v / 2 ^ (8 * Z.of_nat k)) mod 256 :: be_split k v
  end.

Definition be_combine (l : list Z) : Z :=
  fold_left (fun acc b => acc * 256 + b) l 0.

Record istream : Type := mkIn { data : list Z; gpos : Z }.

Definition seekg (fs : istream) (p : Z) : istream :=
  {| data := data fs; gpos := p |}.

Definition tellg (fs : istream) : Z := gpos fs.

(** The byte [k] places after the get position; 0 past the end. *)
Definition peek (fs : istream) (k : nat) : Z :=
  nth (Z.to_nat (gpos fs) + k) (data fs) 0.

(** [fs.read (buf, n)]. *)
Definition read (fs : istream) (n : nat) : list Z * istream :=
  (map (peek fs) (seq 0 n),
   {| data := data fs; gpos := gpos fs + Z.of_nat n |}).

(** Modelled from the spec: the read/write helpers are declared outside
    the sources; they read and write fixed-width big-endian unsigned
    integers at the current position and advance it, with no bounds
    check of their own. *)
Definition readUint (n : nat) (fs : istream) : Z * istream :=
  let (bs, fs') := read fs n in (be_combine bs, fs').

Definition readUint8 := readUint 1.
Definition readUint32 := readUint 4.
Definition readUint64 := readUint 8.

Definition ostream : Type := list Z.

Definition write (out : ostream) (bs : list Z) : ostream := out ++ bs.

Definition writeUint8 (out : ostream) (v : Z) : ostream :=
  write out (be_split 1 v).
Definition writeUint32 (out : ostream) (v : Z) : ostream :=
  write out (be_split 4 v).
Definition writeUint64 (out : ostream) (v : Z) : ostream :=
  write out (be_split 8 v).

End IO.

(* ------------------------------------------------------------------ *)
(** ** Box *)

Module Box.

Record t : Type := mk {
  m_name : list Z;
  m_iPosition : Z;
  m_iHeaderSize : Z;
  m_iContentSize : Z
}.

(** Modelled from the spec: box.cpp is not part of the sources;
    [size ()] is header size plus content size, on 32-bit fields. *)
Definition size (b : t) : Z := Int.u32 (m_iHeaderSize b + m_iContentSize b).

End Box.

(* ------------------------------------------------------------------ *)
(** ** SA3DBox *)

Module SA3DBox.

Record t : Type := mk {
  base : Box.t;
  m_iVersion : Z;
  m_iAmbisonicType : Z;
  m_iAmbisonicOrder : Z;
  m_iAmbisonicChannelOrdering : Z;
  m_iAmbisonicNormalization : Z;
  m_iNumChannels : Z;
  m_ChannelMap : list Z;
  m_AmbisonicTypes : list (string * Z);
  m_AmbisonicOrderings : list (string * Z);
  m_AmbisonicNormalizations : list (string * Z)
}.

Definition set_base (f : Box.t -> Box.t) (b : t) : t :=
  mk (f (base b)) (m_iVersion b) (m_iAmbisonicType b) (m_iAmbisonicOrder b)
     (m_iAmbisonicChannelOrdering b) (m_iAmbisonicNormalization b)
     (m_iNumChannels b) (m_ChannelMap b) (m_AmbisonicTypes b)
     (m_AmbisonicOrderings b) (m_AmbisonicNormalizations b).

Definition set_position (p : Z) : t -> t :=
  set_base (fun x => Box.mk (Box.m_name x) p (Box.m_iHeaderSize x)
                            (Box.m_iContentSize x)).
Definition set_header (h : Z) : t -> t :=
  set_base (fun x => Box.mk (Box.m_name x) (Box.m_iPosition x) h
                            (Box.m_iContentSize x)).
Definition set_content (c : Z) : t -> t :=
  set_base (fun x => Box.mk (Box.m_name x) (Box.m_iPosition x)
                            (Box.m_iHeaderSize x) c).
Definition set_name (nm : list Z) : t -> t :=
  set_base (fun x => Box.mk nm (Box.m_iPosition x) (Box.m_iHeaderSize x)
                            (Box.m_iContentSize x)).
(** [m_iContentSize += k] on a [uint32_t]. *)
Definition add_content (k : Z) (b : t) : t :=
  set_content (Int.u32 (Box.m_iContentSize (base b) + k)) b.

Definition set_version (v : Z) (b : t) : t :=
  mk (base b) v (m_iAmbisonicType b) (m_iAmbisonicOrder b)
     (m_iAmbisonicChannelOrdering b) (m_iAmbisonicNormalization b)
     (m_iNumChannels b) (m_ChannelMap b) (m_AmbisonicTypes b)
     (m_AmbisonicOrderings b) (m_AmbisonicNormalizations b).
Definition set_type (v : Z) (b : t) : t :=
  mk (base b) (m_iVersion b) v (m_iAmbisonicOrder b)
     (m_iAmbisonicChannelOrdering b) (m_iAmbisonicNormalization b)
     (m_iNumChannels b) (m_ChannelMap b) (m_AmbisonicTypes b)
     (m_AmbisonicOrderings b) (m_AmbisonicNormalizations b).
Definition set_order (v : Z) (b : t) : t :=
  mk (base b) (m_iVersion b) (m_iAmbisonicType b) v
     (m_iAmbisonicChannelOrdering b) (m_iAmbisonicNormalization b)
     (m_iNumChannels b) (m_ChannelMap b) (m_AmbisonicTypes b)
     (m_AmbisonicOrderings b) (m_AmbisonicNormalizations b).
Definition set_ordering (v : Z) (b : t) : t :=
  mk (base b) (m_iVersion b) (m_iAmbisonicType b) (m_iAmbisonicOrder b)
     v (m_iAmbisonicNormalization b)
     (m_iNumChannels b) (m_ChannelMap b) (m_AmbisonicTypes b)
     (m_AmbisonicOrderings b) (m_AmbisonicNormalizations b).
Definition set_normalization (v : Z) (b : t) : t :=
  mk (base b) (m_iVersion b) (m_iAmbisonicType b) (m_iAmbisonicOrder b)
     (m_iAmbisonicChannelOrdering b) v
     (m_iNumChannels b) (m_ChannelMap b) (m_AmbisonicTypes b)
     (m_AmbisonicOrderings b) (m_AmbisonicNormalizations b).
Definition set_channels (v : Z) (b : t) : t :=
  mk (base b) (m_iVersion b) (m_iAmbisonicType b) (m_iAmbisonicOrder b)
     (m_iAmbisonicChannelOrdering b) (m_iAmbisonicNormalization b)
     v (m_ChannelMap b) (m_AmbisonicTypes b)
     (m_AmbisonicOrderings b) (m_AmbisonicNormalizations b).
(** [m_ChannelMap.push_back (v)]. *)
Definition push_back (v : Z) (b : t) : t :=
  mk (base b) (m_iVersion b) (m_iAmbisonicType b) (m_iAmbisonicOrder b)
     (m_iAmbisonicChannelOrdering b) (m_iAmbisonicNormalization b)
     (m_iNumChannels b) (m_ChannelMap b ++ [v]) (m_AmbisonicTypes b)
     (m_AmbisonicOrderings b) (m_AmbisonicNormalizations b).

Definition size (b : t) : Z := Box.size (base b).

(** The constructor [SA3DBox::SA3DBox ()]. *)
Definition ctor : t :=
  {| base := Box.mk constants.TAG_SA3D 0 8 0;
     m_iVersion := 0;
     m_iAmbisonicType := 0;
     m_iAmbisonicOrder := 0;
     m_iAmbisonicChannelOrdering := 0;
     m_iAmbisonicNormalization := 0;
     m_iNumChannels := 0;
     m_ChannelMap := [];
     m_AmbisonicTypes := [("periphonic"%string, 0)];
     m_AmbisonicOrderings := [("ACN"%string, 0)];
     m_AmbisonicNormalizations := [("SN3D"%string, 0)] |}.

Inductive load_error : Type :=
| NotSA3D          (* "Error: box is not an SA3D box." *)
| ExceedsBounds.   (* "Error: SA3D box size exceeds bounds." *)

(** The box header as [load] reads it: seek, 32-bit size, four tag
    bytes, and the 64-bit size when the 32-bit one is the escape 1
    (narrowed through [int32_t] into the [uint32_t] local). *)
Definition read_header (fs : IO.istream) (iPos : Z)
  : Z * list Z * IO.istream :=
  let fs := IO.seekg fs iPos in
  let (iSize, fs) := IO.readUint32 fs in
  let (name, fs) := IO.read fs 4 in
  if iSize =? 1
  then let (v, fs) := IO.readUint64 fs in (Int.u32 (Int.i32 v), name, fs)
  else (iSize, name, fs).

(** The channel-map loop of [load]: [count] iterations, each reading a
    32-bit value and appending it. *)
Fixpoint load_map (count : nat) (fs : IO.istream) (b : t)
  : t * IO.istream :=
  match count with
  | O => (b, fs)
  | S k =>
      let (iVal, fs) := IO.readUint32 fs in
      load_map k fs (push_back iVal b)
  end.

(** [SA3DBox::load (fs, iPos, iEnd)]; [inl] is the null result. *)
Definition load (fs : IO.istream) (iPos iEnd : Z) : load_error + t :=
  let iPos := if iPos <? 0 then IO.tellg fs else iPos in
  let '(iSize, name, fs) := read_header fs iPos in
  if negb (0 =? memcmp name constants.TAG_SA3D
                       constants.sizeof_deref_TAG_SA3D)
  then inl NotSA3D
  else if Int.u32 (iPos + iSize) >? iEnd
  then inl ExceedsBounds
  else
    let b := ctor in
    let b := set_position iPos b in
    let b := set_content (Int.u32 (iSize - Box.m_iHeaderSize (base b))) b in
    let (v, fs) := IO.readUint8 fs in
    let b := set_version v b in
    let (v, fs) := IO.readUint8 fs in
    let b := set_type v b in
    let (v, fs) := IO.readUint32 fs in
    let b := set_order v b in
    let (v, fs) := IO.readUint8 fs in
    let b := set_ordering v b in
    let (v, fs) := IO.readUint8 fs in
    let b := set_normalization v b in
    let (v, fs) := IO.readUint32 fs in
    let b := set_channels v b in
    inr (fst (load_map (Z.to_nat (m_iNumChannels b)) fs b)).

(** The channel-map loop of [create]: [count] iterations from counter
    [i], each appending [i] and adding 4 to the content size. *)
Fixpoint create_map (count : nat) (i : Z) (b : t) : t :=
  match count with
  | O => b
  | S k => create_map k (Int.u32 (i + 1)) (add_content 4 (push_back i b))
  end.

(** [SA3DBox::create (iNumChannels)].  [::sqrt (n) - 1] is a [double]
    stored into a [uint32_t]: the conversion truncates, and for
    [n >= 1] the truncation of [sqrt n - 1] is [Z.sqrt n - 1] (a
    correctly rounded square root of an integer below [2^31] never
    reaches the next integer). *)
Definition create (iNumChannels : Z) : t :=
  let b := ctor in
  let b := set_header 8 b in
  let b := set_name constants.TAG_SA3D b in
  let b := set_order (Int.u32 (Z.sqrt iNumChannels - 1)) b in
  let b := set_version 0 b in
  let b := add_content 1 b in
  let b := add_content 1 b in
  let b := add_content 4 b in
  let b := add_content 1 b in
  let b := add_content 1 b in
  let b := set_channels (Int.u32 iNumChannels) b in
  let b := add_content 4 b in
  create_map (Z.to_nat (Int.u32 iNumChannels)) 0 b.

(** [SA3DBox::save (fsIn, fsOut, delta)]: the input stream and the delta
    are unused; the result is the output stream afterwards. *)
Definition save (b : t) (fsOut : IO.ostream) : IO.ostream :=
  let fsOut :=
    if Box.m_iHeaderSize (base b) =? 16 then
      let fsOut := IO.writeUint32 fsOut 1 in
      let fsOut := IO.write fsOut (firstn 4 (Box.m_name (base b))) in
      IO.writeUint64 fsOut (size b)
    else if Box.m_iHeaderSize (base b) =? 8 then
      let fsOut := IO.writeUint32 fsOut (size b) in
      IO.write fsOut (firstn 4 (Box.m_name (base b)))
    else fsOut in
  let fsOut := IO.writeUint8 fsOut (m_iVersion b) in
  let fsOut := IO.writeUint8 fsOut (m_iAmbisonicType b) in
  let fsOut := IO.writeUint32 fsOut (m_iAmbisonicOrder b) in
  let fsOut := IO.writeUint8 fsOut (m_iAmbisonicChannelOrdering b) in
  let fsOut := IO.writeUint8 fsOut (m_iAmbisonicNormalization b) in
  let fsOut := IO.writeUint32 fsOut (m_iNumChannels b) in
  fold_left IO.writeUint32 (m_ChannelMap b) fsOut.

End SA3DBox.

(* ------------------------------------------------------------------ *)
(** ** Container *)

(** Result of a loop run with a bound on its iterations. *)
Inductive run (A : Type) : Type :=
| Done (a : A)
| OutOfFuel.
Arguments Done {A} a.
Arguments OutOfFuel {A}.

Module Container.

Section Loader.

(** The generic dispatch-by-tag box loader ([Box::load]), a
    collaborator of the container: [None] is its null result. *)
Variable Box_load : IO.istream -> Z -> Z -> option Box.t.

(** Modelled from the spec: container.cpp is not part of the sources.
    The top-level boxes are parsed one after the other from [iPos]
    until the span [[iPos, iEnd)] is exhausted, each box starting
    where the previous one ends; a failed box load aborts the parse
    and yields the empty list. *)
Fixpoint load_multiple (fuel : nat) (fs : IO.istream) (iPos iEnd : Z)
                       (boxes : list Box.t) : run (list Box.t) :=
  if iPos <? iEnd then
    match fuel with
    | O => OutOfFuel
    | S fuel' =>
        match Box_load fs iPos iEnd with
        | Some pBox =>
            load_multiple fuel' fs
              (Int.u32 (Box.m_iPosition pBox + Box.size pBox)) iEnd
              (boxes ++ [pBox])
        | None => Done []
        end
    end
  else Done boxes.

End Loader.

End Container.

(* ------------------------------------------------------------------ *)
(** ** Mpeg4Container *)

(** How a call ends: by returning, or by [exit (status)]. *)
Inductive control : Type :=
| Returns
| Exits (status : Z).

Module Mpeg4Container.

Record t : Type := mk {
  m_listContents : list Box.t;
  m_pMoovBox : option nat;
  m_pFreeBox : option nat;
  m_pFirstMDatBox : option nat;
  m_pFTYPBox : option nat;
  m_iFirstMDatPos : Z;
  m_iContentSize : Z
}.

(** The constructor [Mpeg4Container::Mpeg4Container ()]. *)
Definition ctor : t :=
  {| m_listContents := [];
     m_pMoovBox := None;
     m_pFreeBox := None;
     m_pFirstMDatBox := None;
     m_pFTYPBox := None;
     m_iFirstMDatPos := 0;
     m_iContentSize := 0 |}.

Definition set_contents (l : list Box.t) (c : t) : t :=
  mk l (m_pMoovBox c) (m_pFreeBox c) (m_pFirstMDatBox c) (m_pFTYPBox c)
     (m_iFirstMDatPos c) (m_iContentSize c).
Definition set_moov (p : option nat) (c : t) : t :=
  mk (m_listContents c) p (m_pFreeBox c) (m_pFirstMDatBox c) (m_pFTYPBox c)
     (m_iFirstMDatPos c) (m_iContentSize c).
Definition set_free (p : option nat) (c : t) : t :=
  mk (m_listContents c) (m_pMoovBox c) p (m_pFirstMDatBox c) (m_pFTYPBox c)
     (m_iFirstMDatPos c) (m_iContentSize c).
Definition set_mdat (p : option nat) (c : t) : t :=
  mk (m_listContents c) (m_pMoovBox c) (m_pFreeBox c) p (m_pFTYPBox c)
     (m_iFirstMDatPos c) (m_iContentSize c).
Definition set_ftyp (p : option nat) (c : t) : t :=
  mk (m_listContents c) (m_pMoovBox c) (m_pFreeBox c) (m_pFirstMDatBox c) p
     (m_iFirstMDatPos c) (m_iContentSize c).
Definition set_first_pos (v : Z) (c : t) : t :=
  mk (m_listContents c) (m_pMoovBox c) (m_pFreeBox c) (m_pFirstMDatBox c)
     (m_pFTYPBox c) v (m_iContentSize c).
Definition set_content_size (v : Z) (c : t) : t :=
  mk (m_listContents c) (m_pMoovBox c) (m_pFreeBox c) (m_pFirstMDatBox c)
     (m_pFTYPBox c) (m_iFirstMDatPos c) v.

Definition is_null (p : option nat) : bool :=
  match p with None => true | Some _ => false end.

(** The first loop of [load]: [pBox] is child number [i]. *)
Fixpoint scan (l : list Box.t) (i : nat) (c : t) : t :=
  match l with
  | [] => c
  | pBox :: rest =>
      let c := if memcmp (Box.m_name pBox) (bytes_of_string "moov") 4 =? 0
               then set_moov (Some i) c else c in
      let c := if memcmp (Box.m_name pBox) (bytes_of_string "free") 4 =? 0
               then set_free (Some i) c else c in
      let c := if (memcmp (Box.m_name pBox) (bytes_of_string "mdat") 4 =? 0)
                  && is_null (m_pFirstMDatBox c)
               then set_mdat (Some i) c else c in
      let c := if memcmp (Box.m_name pBox) (bytes_of_string "ftyp") 4 =? 0
               then set_ftyp (Some i) c else c in
      scan rest (S i) c
  end.

(** [Mpeg4Container::load] from the point where [load_multiple] has
    returned [boxes]; [None] is the null result (the container built so
    far is deleted). *)
Definition load_list (boxes : list Box.t) : option t :=
  match boxes with
  | [] => None
  | _ :: _ =>
      let c := set_contents boxes ctor in
      let c := scan boxes 0 c in
      if is_null (m_pMoovBox c) then None
      else
        match m_pFirstMDatBox c with
        | None => None
        | Some i =>
            match nth_error (m_listContents c) i with
            | None => None
            | Some pMDat =>
                let c := set_first_pos (Box.m_iPosition pMDat) c in
                let c := set_first_pos
                           (Int.u32 (m_iFirstMDatPos c
                                     + Box.m_iHeaderSize pMDat)) c in
                let c := set_content_size 0 c in
                Some (fold_left
                        (fun c pBox =>
                           set_content_size
                             (Int.u32 (m_iContentSize c + Box.size pBox)) c)
                        (m_listContents c) c)
            end
        end
  end.

(** [Mpeg4Container::load (fsIn)]: the size is the get position of the
    stream as passed in. *)
Definition load (Box_load : IO.istream -> Z -> Z -> option Box.t)
                (fuel : nat) (fsIn : IO.istream) : run (option t) :=
  let iSize := Int.i32 (IO.tellg fsIn) in
  match Container.load_multiple Box_load fuel fsIn 0 (Int.u32 iSize) [] with
  | OutOfFuel => OutOfFuel
  | Done boxes => Done (load_list boxes)
  end.

(** [Mpeg4Container::merge (pElement)]: the way the call ends, the
    container and the error stream at that point. *)
Definition merge (self : t) (pElement : Box.t) (cerr : list string)
  : control * t * list string :=
  (Exits 0, self, cerr ++ ["Cannot merge mpeg4 files"%string]).

(** The first loop of [save], from the running offset [iNewPos]. *)
Fixpoint new_pos (l : list Box.t) (iNewPos : Z) : Z :=
  match l with
  | [] => iNewPos
  | pBox :: rest =>
      if memcmp (Box.m_name pBox) constants.TAG_MDAT 4 =? 0
      then Int.u32 (iNewPos + Box.m_iHeaderSize pBox)
      else new_pos rest (Int.u32 (iNewPos + Box.size pBox))
  end.

Section Save.

(** [Container::resize] on this container (declared outside the
    sources) and the virtual [Box::save] of a child, which receives
    the two streams and the delta as an [int32_t]. *)
Variable resize : t -> t.
Variable Box_save :
  Box.t -> IO.istream -> IO.ostream -> Z -> IO.istream * IO.ostream.

(** The [uint32_t iDelta] local of [save]. *)
Definition save_delta (self : t) : Z :=
  let self := resize self in
  let iNewPos := new_pos (m_listContents self) 0 in
  Int.u32 (iNewPos - m_iFirstMDatPos self).

(** The second loop of [save]. *)
Definition save_children (iDelta : Z) (l : list Box.t)
                         (fsIn : IO.istream) (fsOut : IO.ostream)
  : IO.istream * IO.ostream :=
  fold_left (fun st pBox => Box_save pBox (fst st) (snd st) (Int.i32 iDelta))
            l (fsIn, fsOut).

(** [Mpeg4Container::save (fsIn, fsOut, delta)]: the incoming delta is
    unused; the result is the container and the streams afterwards. *)
Definition save (self : t) (fsIn : IO.istream) (fsOut : IO.ostream)
  : t * (IO.istream * IO.ostream) :=
  let iDelta := save_delta self in
  let self := resize self in
  (self, save_children iDelta (m_listContents self) fsIn fsOut).

End Save.

(** [std::cout << v] for an unsigned integer, and [std::endl]. *)
Definition decimal (v : Z) : string := NilZero.string_of_int (Z.to_int v).
Definition endl : string := String (ascii_of_nat 10) EmptyString.

Section Print.

(** The virtual [Box::print_structure] of a child: the indent it is
    given and the text on [std::cout] before and after the call. *)
Variable Box_print : Box.t -> string -> string -> string.

(** The loop of [print_structure]: [iCount] is the [uint32_t] countdown,
    [strIndent] the local string. *)
Fixpoint print_children (l : list Box.t) (iCount : Z) (strIndent : string)
                        (cout : string) : string :=
  match l with
  | [] => cout
  | pBox :: rest =>
      let strIndent := " ├──"%string in
      let iCount := Int.u32 (iCount - 1) in
      let strIndent := if iCount <=? 0 then " └──"%string else strIndent in
      print_children rest iCount strIndent (Box_print pBox strIndent cout)
  end.

(** [Mpeg4Container::print_structure (pIndent)]: the text on [std::cout]
    afterwards. *)
Definition print_structure (self : t) (pIndent : string) (cout : string)
  : string :=
  let cout := (cout ++ "mpeg4 [" ++ decimal (m_iContentSize self) ++ "]"
               ++ endl)%string in
  let iCount := Int.u32 (Z.of_nat (length (m_listContents self))) in
  print_children (m_listContents self) iCount pIndent cout.

End Print.

End Mpeg4Container.

(* ------------------------------------------------------------------ *)
(** ** The stand-alone beat tracker: detect_beats *)

Module BeatTracker.

Definition HOP_SIZE : Z := 512.
Definition FRAME_SIZE : Z := 1024.

(** [i * HOP_SIZE / (double) FRAME_SIZE]: an [int] product divided by a
    power of two, which a [double] holds exactly. *)
Definition beat_time (i : Z) : Q :=
  (inject_Z (i * HOP_SIZE) / inject_Z FRAME_SIZE)%Q.

Section DetectBeats.

(** A [double] and its comparisons [a > b] and [a <= b]; [garbage] is
    what a read outside the array would give (the guards of the code
    never let it be looked at). *)
Variable sample : Type.
Variable gt le : sample -> sample -> bool.
Variable garbage : sample.

Definition at_index (energy : list sample) (k : Z) : sample :=
  nth (Z.to_nat k) energy garbage.

(** The inner loop over [j], [count] iterations from [j]: the final
    value of [is_peak]. *)
Fixpoint is_peak (count : nat) (j : Z) (energy : list sample)
                 (num_frames i : Z) : bool :=
  match count with
  | O => true
  | S count' =>
      if (i - j >=? 0)
         && le (at_index energy i) (at_index energy (i - j))
      then false
      else if (i + j <? num_frames)
              && le (at_index energy i) (at_index energy (i + j))
      then false
      else is_peak count' (j + 1) energy num_frames i
  end.

Definition min_distance : nat := 5.

(** The outer loop, [count] iterations from frame [i]; [beat_times] are
    the entries written so far, in order. *)
Fixpoint scan_frames (count : nat) (i : Z) (energy : list sample)
                     (num_frames : Z) (beat_times : list Q) : list Q :=
  match count with
  | O => beat_times
  | S count' =>
      let beat_times :=
        if gt (at_index energy i) (at_index energy (i - 1))
           && gt (at_index energy i) (at_index energy (i + 1))
        then
          if is_peak min_distance 1 energy num_frames i
          then beat_times ++ [beat_time i]
          else beat_times
        else beat_times in
      scan_frames count' (i + 1) energy num_frames beat_times
  end.

(** [detect_beats (energy, num_frames, beat_times, num_beats)]: the
    entries written to [beat_times] and the final [*num_beats]. *)
Definition detect_beats (energy : list sample) (num_frames : Z)
  : list Q * Z :=
  let beat_times :=
    scan_frames (Z.to_nat (num_frames - 2)) 1 energy num_frames [] in
  (beat_times, Z.of_nat (length beat_times)).

End DetectBeats.

Arguments at_index {sample} garbage energy k.
Arguments is_peak {sample} le garbage count j energy num_frames i.
Arguments scan_frames {sample} gt le garbage count i energy num_frames
  beat_times.
Arguments detect_beats {sample} gt le garbage energy num_frames.

End BeatTracker.

(* ------------------------------------------------------------------ *)
(** ** The beat-marker filter: calculate_band_energy *)

Module BeatMarker.

Definition FFT_SIZE : Z := 1024.

Section BandEnergy.

(** A [double] with the operations the function uses: [0.0], [a + b]
    and [sqrt (re * re + im * im)]; [garbage] is what a read outside the
    array would give. *)
Variable real : Type.
Variable zero : real.
Variable add : real -> real -> real.
Variable magnitude : real -> real -> real.
Variable garbage : real.

(** The loop from bin [i], with an iteration bound. *)
Fixpoint band_loop (fuel : nat) (fft_out : list real) (high_bin i : Z)
                   (energy : real) : real :=
  match fuel with
  | O => energy
  | S fuel' =>
      if (i <=? high_bin) && (i <? FFT_SIZE / 2) then
        let re := nth (Z.to_nat (2 * i)) fft_out garbage in
        let im := nth (Z.to_nat (2 * i + 1)) fft_out garbage in
        band_loop fuel' fft_out high_bin (i + 1)
                  (add energy (magnitude re im))
      else energy
  end.

(** [calculate_band_energy (fft_out, low_bin, high_bin)].  The loop
    stops at the latest when [i] reaches [FFT_SIZE / 2], so
    [FFT_SIZE / 2 - low_bin] iterations are all it can make. *)
Definition calculate_band_energy (fft_out : list real)
                                 (low_bin high_bin : Z) : real :=
  band_loop (Z.to_nat (FFT_SIZE / 2 - low_bin)) fft_out high_bin low_bin zero.

End BandEnergy.

Arguments band_loop {real} add magnitude garbage fuel fft_out high_bin i
  energy.
Arguments calculate_band_energy {real} zero add magnitude garbage fft_out
  low_bin high_bin.

End BeatMarker.

(* ================================================================== *)
(** * Vocabulary of the statements *)

(** ** Streams and byte layouts *)

(** What is left of the stream from the get position on. *)
Definition remaining (fs : IO.istream) : list Z :=
  skipn (Z.to_nat (IO.gpos fs)) (IO.data fs).

(** Reduce the record updates of [SA3DBox] on a box given by its
    constructor, without touching arithmetic. *)
Ltac sa3d_fields :=
  cbv [SA3DBox.set_base SA3DBox.set_position SA3DBox.set_header
       SA3DBox.set_content SA3DBox.set_name SA3DBox.add_content
       SA3DBox.set_version SA3DBox.set_type SA3DBox.set_order
       SA3DBox.set_ordering SA3DBox.set_normalization SA3DBox.set_channels
       SA3DBox.push_back SA3DBox.ctor SA3DBox.size Box.size
       SA3DBox.base SA3DBox.m_iVersion SA3DBox.m_iAmbisonicType
       SA3DBox.m_iAmbisonicOrder SA3DBox.m_iAmbisonicChannelOrdering
       SA3DBox.m_iAmbisonicNormalization SA3DBox.m_iNumChannels
       SA3DBox.m_ChannelMap SA3DBox.m_AmbisonicTypes
       SA3DBox.m_AmbisonicOrderings SA3DBox.m_AmbisonicNormalizations
       Box.m_name Box.m_iPosition Box.m_iHeaderSize Box.m_iContentSize].

Definition header_bytes (b : SA3DBox.t) : list Z :=
  let h := Box.m_iHeaderSize (SA3DBox.base b) in
  let name := firstn 4 (Box.m_name (SA3DBox.base b)) in
  if h =? 16 then IO.be_split 4 1 ++ name ++ IO.be_split 8 (SA3DBox.size b)
  else if h =? 8 then IO.be_split 4 (SA3DBox.size b) ++ name
  else [].

Definition map_bytes (l : list Z) : list Z := flat_map (IO.be_split 4) l.

Definition content_bytes (b : SA3DBox.t) : list Z :=
  IO.be_split 1 (SA3DBox.m_iVersion b)
  ++ IO.be_split 1 (SA3DBox.m_iAmbisonicType b)
  ++ IO.be_split 4 (SA3DBox.m_iAmbisonicOrder b)
  ++ IO.be_split 1 (SA3DBox.m_iAmbisonicChannelOrdering b)
  ++ IO.be_split 1 (SA3DBox.m_iAmbisonicNormalization b)
  ++ IO.be_split 4 (SA3DBox.m_iNumChannels b)
  ++ map_bytes (SA3DBox.m_ChannelMap b).

(** ** SA3D boxes *)

(** The identity channel map [i, i+1, ..., i+k-1]. *)
Fixpoint iota (k : nat) (i : Z) : list Z :=
  match k with
  | O => []
  | S k' => i :: iota k' (i + 1)
  end.

(** A box with the channel map extended and the content size replaced. *)
Definition with_map_content (l : list Z) (c : Z) (b : SA3DBox.t) : SA3DBox.t :=
  SA3DBox.mk
    (Box.mk (Box.m_name (SA3DBox.base b)) (Box.m_iPosition (SA3DBox.base b))
            (Box.m_iHeaderSize (SA3DBox.base b)) c)
    (SA3DBox.m_iVersion b) (SA3DBox.m_iAmbisonicType b)
    (SA3DBox.m_iAmbisonicOrder b) (SA3DBox.m_iAmbisonicChannelOrdering b)
    (SA3DBox.m_iAmbisonicNormalization b) (SA3DBox.m_iNumChannels b)
    (SA3DBox.m_ChannelMap b ++ l)
    (SA3DBox.m_AmbisonicTypes b) (SA3DBox.m_AmbisonicOrderings b)
    (SA3DBox.m_AmbisonicNormalizations b).

(** [create n] in closed form, for a channel count that is a
    non-negative [int32_t]. *)
Definition created (n : Z) : SA3DBox.t :=
  SA3DBox.mk
    (Box.mk constants.TAG_SA3D 0 8 (Int.u32 (12 + 4 * n)))
    0 0 (Int.u32 (Z.sqrt n - 1)) 0 0 n (iota (Z.to_nat n) 0)
    [("periphonic"%string, 0)] [("ACN"%string, 0)] [("SN3D"%string, 0)].

(** The fields of a box fit their wire widths and the channel count is
    the length of the channel map. *)
Record wire_ok (b : SA3DBox.t) : Prop := {
  ok_version : 0 <= SA3DBox.m_iVersion b < 2 ^ 8;
  ok_type : 0 <= SA3DBox.m_iAmbisonicType b < 2 ^ 8;
  ok_order : 0 <= SA3DBox.m_iAmbisonicOrder b < 2 ^ 32;
  ok_ordering : 0 <= SA3DBox.m_iAmbisonicChannelOrdering b < 2 ^ 8;
  ok_normalization : 0 <= SA3DBox.m_iAmbisonicNormalization b < 2 ^ 8;
  ok_channels : SA3DBox.m_iNumChannels b
                = Z.of_nat (length (SA3DBox.m_ChannelMap b));
  ok_channels_u32 : SA3DBox.m_iNumChannels b < 2 ^ 32;
  ok_map : Forall Int.is_u32 (SA3DBox.m_ChannelMap b)
}.

(** The same conditions as a test. *)
Definition wire_okb (b : SA3DBox.t) : bool :=
  let u8 v := (0 <=? v) && (v <? 2 ^ 8) in
  let u32 v := (0 <=? v) && (v <? 2 ^ 32) in
  u8 (SA3DBox.m_iVersion b) && u8 (SA3DBox.m_iAmbisonicType b)
  && u32 (SA3DBox.m_iAmbisonicOrder b)
  && u8 (SA3DBox.m_iAmbisonicChannelOrdering b)
  && u8 (SA3DBox.m_iAmbisonicNormalization b)
  && (SA3DBox.m_iNumChannels b
      =? Z.of_nat (length (SA3DBox.m_ChannelMap b)))
  && (SA3DBox.m_iNumChannels b <? 2 ^ 32)
  && forallb u32 (SA3DBox.m_ChannelMap b).

(** The box [load] builds at [iPos] for a declared size [iSize] when the
    content bytes are those of [b]. *)
Definition image (iPos iSize : Z) (b : SA3DBox.t) : SA3DBox.t :=
  SA3DBox.mk
    (Box.mk constants.TAG_SA3D iPos 8 (Int.u32 (iSize - 8)))
    (SA3DBox.m_iVersion b) (SA3DBox.m_iAmbisonicType b)
    (SA3DBox.m_iAmbisonicOrder b) (SA3DBox.m_iAmbisonicChannelOrdering b)
    (SA3DBox.m_iAmbisonicNormalization b) (SA3DBox.m_iNumChannels b)
    (SA3DBox.m_ChannelMap b)
    [("periphonic"%string, 0)] [("ACN"%string, 0)] [("SN3D"%string, 0)].

(** ** Child lists of a container *)

Definition is_moov (b : Box.t) : bool :=
  memcmp (Box.m_name b) (bytes_of_string "moov") 4 =? 0.
Definition is_free (b : Box.t) : bool :=
  memcmp (Box.m_name b) (bytes_of_string "free") 4 =? 0.
Definition is_mdat (b : Box.t) : bool :=
  memcmp (Box.m_name b) (bytes_of_string "mdat") 4 =? 0.
Definition is_ftyp (b : Box.t) : bool :=
  memcmp (Box.m_name b) (bytes_of_string "ftyp") 4 =? 0.

(** Child [i] of [l] satisfies [p] and no child before it does. *)
Definition first_with (p : Box.t -> bool) (l : list Box.t) (i : nat) : Prop :=
  exists b, nth_error l i = Some b /\ p b = true
    /\ forall j b', (j < i)%nat -> nth_error l j = Some b' -> p b' = false.

(** Child [i] of [l] satisfies [p] and no child after it does. *)
Definition last_with (p : Box.t -> bool) (l : list Box.t) (i : nat) : Prop :=
  exists b, nth_error l i = Some b /\ p b = true
    /\ forall j b', (i < j)%nat -> nth_error l j = Some b' -> p b' = false.

Definition none_with (p : Box.t -> bool) (l : list Box.t) : Prop :=
  forall b, In b l -> p b = false.

(** A reference that is null when no child satisfies [p] and otherwise
    designates the last child that does. *)
Definition refers_last (p : Box.t -> bool) (l : list Box.t)
                       (r : option nat) : Prop :=
  match r with
  | Some i => last_with p l i
  | None => none_with p l
  end.

Definition refers_first (p : Box.t -> bool) (l : list Box.t)
                        (r : option nat) : Prop :=
  match r with
  | Some i => first_with p l i
  | None => none_with p l
  end.

Fixpoint find_first (p : Box.t -> bool) (l : list Box.t) : option nat :=
  match l with
  | [] => None
  | x :: r => if p x then Some O else option_map S (find_first p r)
  end.

Fixpoint find_last (p : Box.t -> bool) (l : list Box.t) : option nat :=
  match l with
  | [] => None
  | x :: r =>
      match find_last p r with
      | Some j => Some (S j)
      | None => if p x then Some O else None
      end
  end.

(** The references after the first loop of [load], for children numbered
    from [i]. *)
Definition shift (i : nat) (r : option nat) : option nat :=
  option_map (fun j => (i + j)%nat) r.

Definition or_else (r old : option nat) : option nat :=
  match r with Some _ => r | None => old end.

(** The running total of the last loop of [load]. *)
Definition total_size (l : list Box.t) (acc : Z) : Z :=
  fold_left (fun a pBox => Int.u32 (a + Box.size pBox)) l acc.

(** [load_list] in closed form. *)
Definition loaded (l : list Box.t) : option Mpeg4Container.t :=
  match find_last is_moov l, find_first is_mdat l with
  | Some _, Some i =>
      match nth_error l i with
      | Some pMDat =>
          Some (Mpeg4Container.mk l
                  (find_last is_moov l) (find_last is_free l) (Some i)
                  (find_last is_ftyp l)
                  (Int.u32 (Box.m_iPosition pMDat + Box.m_iHeaderSize pMDat))
                  (total_size l 0))
      | None => None
      end
  | _, _ => None
  end.

(** ** Sizes and positions *)

(** The sum of the sizes of a run of boxes. *)
Definition sizes (l : list Box.t) : Z :=
  fold_right (fun b s => Box.size b + s) 0 l.

(** Every box of [l] starts where the previous one ends, the first one
    at [p] (positions are 32-bit). *)
Fixpoint tiled (p : Z) (l : list Box.t) : Prop :=
  match l with
  | [] => True
  | b :: r => Box.m_iPosition b = p /\ tiled (Int.u32 (p + Box.size b)) r
  end.

(** Two boxes with the same tag, header size and size. *)
Definition same_layout (b1 b2 : Box.t) : Prop :=
  Box.m_name b1 = Box.m_name b2
  /\ Box.m_iHeaderSize b1 = Box.m_iHeaderSize b2
  /\ Box.size b1 = Box.size b2.

(** A loader of plain boxes in the standard header form: 32-bit size,
    four tag bytes, the rest is content. *)
Definition plain_box_load (fs : IO.istream) (iPos iEnd : Z) : option Box.t :=
  let (iSize, fs1) := IO.readUint32 (IO.seekg fs iPos) in
  let (name, _) := IO.read fs1 4 in
  if (iSize <? 8) || (iPos + iSize >? iEnd) then None
  else Some (Box.mk name iPos 8 (iSize - 8)).

(** ** Further vocabulary *)

(** Every child carries a four-byte tag, as a parsed box does. *)
Definition four_byte_names (l : list Box.t) : Prop :=
  Forall (fun b => length (Box.m_name b) = 4%nat) l.

(** A reference that, when set, designates a child of [l] whose name is
    exactly [tag]. *)
Definition refers_named (l : list Box.t) (r : option nat)
                        (tag : string) : Prop :=
  forall i, r = Some i ->
    exists b, nth_error l i = Some b /\ Box.m_name b = bytes_of_string tag.

Definition is_byte (z : Z) : Prop := 0 <= z < 256.

(** Two SA3D boxes with the same seven wire fields. *)
Definition same_fields (b b' : SA3DBox.t) : Prop :=
  SA3DBox.m_iVersion b' = SA3DBox.m_iVersion b
  /\ SA3DBox.m_iAmbisonicType b' = SA3DBox.m_iAmbisonicType b
  /\ SA3DBox.m_iAmbisonicOrder b' = SA3DBox.m_iAmbisonicOrder b
  /\ SA3DBox.m_iAmbisonicChannelOrdering b'
     = SA3DBox.m_iAmbisonicChannelOrdering b
  /\ SA3DBox.m_iAmbisonicNormalization b'
     = SA3DBox.m_iAmbisonicNormalization b
  /\ SA3DBox.m_iNumChannels b' = SA3DBox.m_iNumChannels b
  /\ SA3DBox.m_ChannelMap b' = SA3DBox.m_ChannelMap b.

(** The first [k] big-endian 32-bit values of a byte sequence. *)
Fixpoint decode_map (k : nat) (s : list Z) : list Z :=
  match k with
  | O => []
  | S k' => IO.be_combine (firstn 4 s) :: decode_map k' (skipn 4 s)
  end.

(** The connectors [print_structure] hands to [n] children. *)
Definition connectors (n : nat) : list string :=
  repeat " ├──"%string (n - 1) ++ [" └──"%string].

(** Frame [i] passes both tests of [detect_beats]. *)
Definition beat_frame {sample : Type} (gt le : sample -> sample -> bool)
                      (garbage : sample) (energy : list sample)
                      (num_frames i : Z) : bool :=
  gt (BeatTracker.at_index garbage energy i)
     (BeatTracker.at_index garbage energy (i - 1))
  && gt (BeatTracker.at_index garbage energy i)
        (BeatTracker.at_index garbage energy (i + 1))
  && BeatTracker.is_peak le garbage BeatTracker.min_distance 1
                         energy num_frames i.

(** Frame [i] is above every existing frame at distance [1..5]. *)
Definition dominates {sample : Type} (le : sample -> sample -> bool)
                     (garbage : sample) (energy : list sample)
                     (num_frames i : Z) : Prop :=
  forall d, 1 <= d <= 5 ->
    (0 <= i - d ->
     le (BeatTracker.at_index garbage energy i)
        (BeatTracker.at_index garbage energy (i - d)) = false)
    /\ (i + d < num_frames ->
        le (BeatTracker.at_index garbage energy i)
           (BeatTracker.at_index garbage energy (i + d)) = false).

(** One step of the band sum: the magnitude of bin [i] added to the
    running energy. *)
Definition add_bin {real : Type} (add magnitude : real -> real -> real)
                   (garbage : real) (fft_out : list real)
                   (energy : real) (i : Z) : real :=
  add energy (magnitude (nth (Z.to_nat (2 * i)) fft_out garbage)
                        (nth (Z.to_nat (2 * i + 1)) fft_out garbage)).

(* ================================================================== *)
(** * Properties *)

(** ** Machine integers *)

Lemma u32_range z : 0 <= Int.u32 z < 2 ^ 32.
Proof. unfold Int.u32. apply Z.mod_pos_bound. lia. Qed.

Lemma u32_small z : 0 <= z < 2 ^ 32 -> Int.u32 z = z.
Proof. intros H. unfold Int.u32. now apply Z.mod_small. Qed.

Lemma u32_i32 z : Int.u32 (Int.i32 z) = Int.u32 z.
Proof.
  unfold Int.u32, Int.i32. cbv zeta.
  destruct (z mod 2 ^ 32 <? 2 ^ 31).
  - apply Z.mod_mod. lia.
  - replace (z mod 2 ^ 32 - 2 ^ 32) with (z mod 2 ^ 32 + (-1) * 2 ^ 32) by lia.
    rewrite Z.mod_add by lia. apply Z.mod_mod. lia.
Qed.

(** Two wrapped values agree as soon as their arguments differ by a
    multiple of [2^32]. *)
Lemma u32_congr a b k : a = b + k * 2 ^ 32 -> Int.u32 a = Int.u32 b.
Proof. intros ->. unfold Int.u32. apply Z.mod_add. lia. Qed.

Lemma u32_decomp z : exists k, Int.u32 z = z + k * 2 ^ 32.
Proof.
  exists (- (z / 2 ^ 32)). unfold Int.u32.
  pose proof (Z.div_mod z (2 ^ 32)). lia.
Qed.

(** ** Big-endian digits *)

Lemma be_fold_split n : forall v acc,
  fold_left (fun a b => a * 256 + b) (IO.be_split n v) acc
  = acc * 2 ^ (8 * Z.of_nat n) + v mod 2 ^ (8 * Z.of_nat n).
Proof.
  induction n as [|k IH]; intros v acc.
  - simpl. rewrite Z.mod_1_r. lia.
  - cbn [IO.be_split fold_left]. rewrite IH.
    replace (8 * Z.of_nat (S k)) with (8 * Z.of_nat k + 8) by lia.
    rewrite Z.pow_add_r by lia.
    change (2 ^ 8) with 256.
    rewrite (Z.rem_mul_r v (2 ^ (8 * Z.of_nat k)) 256) by lia.
    ring.
Qed.

Lemma be_combine_split n v :
  0 <= v < 2 ^ (8 * Z.of_nat n) -> IO.be_combine (IO.be_split n v) = v.
Proof.
  intros H. unfold IO.be_combine. rewrite be_fold_split.
  rewrite Z.mod_small by assumption. lia.
Qed.

Lemma be_split_length n v : length (IO.be_split n v) = n.
Proof. induction n; simpl; congruence. Qed.

(** ** Reading from a stream *)

Lemma nth_prefix (bs rest : list Z) :
  map (fun k => nth k (bs ++ rest) 0) (seq 0 (length bs)) = bs.
Proof.
  revert rest. induction bs as [|b bs IH]; intros rest; [reflexivity|].
  cbn [length seq map app nth]. f_equal.
  rewrite <- seq_shift, map_map. cbn [nth]. apply IH.
Qed.

Lemma nth_skipn_shift (l : list Z) (s k : nat) :
  nth (s + k) l 0 = nth k (skipn s l) 0.
Proof.
  revert l. induction s as [|s IH]; intros l; [reflexivity|].
  destruct l as [|x l]; [destruct k; reflexivity|]. cbn. apply IH.
Qed.

Lemma read_remaining fs bs rest :
  0 <= IO.gpos fs ->
  remaining fs = bs ++ rest ->
  exists fs',
    IO.read fs (length bs) = (bs, fs')
    /\ remaining fs' = rest
    /\ 0 <= IO.gpos fs'.
Proof.
  intros Hpos Hrem. unfold IO.read.
  eexists. split; [|split].
  - f_equal. unfold IO.peek.
    erewrite map_ext; [|intros k; apply nth_skipn_shift].
    fold (remaining fs). rewrite Hrem. apply nth_prefix.
  - unfold remaining in *. cbn [IO.data IO.gpos].
    rewrite Z2Nat.inj_add, Nat2Z.id by lia.
    rewrite Nat.add_comm, <- skipn_skipn, Hrem.
    rewrite skipn_app, skipn_all, Nat.sub_diag. reflexivity.
  - cbn [IO.gpos]. lia.
Qed.

Lemma readUint_remaining n fs v rest :
  0 <= IO.gpos fs ->
  0 <= v < 2 ^ (8 * Z.of_nat n) ->
  remaining fs = IO.be_split n v ++ rest ->
  exists fs',
    IO.readUint n fs = (v, fs')
    /\ remaining fs' = rest
    /\ 0 <= IO.gpos fs'.
Proof.
  intros Hpos Hv Hrem.
  destruct (read_remaining fs _ _ Hpos Hrem) as (fs' & Hr & Hrest & Hp).
  rewrite be_split_length in Hr.
  exists fs'. unfold IO.readUint. rewrite Hr.
  rewrite be_combine_split by assumption. auto.
Qed.

(** ** SA3DBox: layout written by [save] *)

Lemma fold_writeUint32 l : forall out,
  fold_left IO.writeUint32 l out = out ++ map_bytes l.
Proof.
  induction l as [|v l IH]; intros out; cbn [fold_left map_bytes flat_map].
  - now rewrite app_nil_r.
  - rewrite IH. unfold IO.writeUint32, IO.write, map_bytes.
    now rewrite <- app_assoc.
Qed.

Lemma save_layout b out :
  SA3DBox.save b out = out ++ header_bytes b ++ content_bytes b.
Proof.
  unfold SA3DBox.save, header_bytes, content_bytes. cbv zeta.
  rewrite fold_writeUint32.
  unfold IO.writeUint8, IO.writeUint32, IO.writeUint64, IO.write.
  destruct (Box.m_iHeaderSize (SA3DBox.base b) =? 16);
    [|destruct (Box.m_iHeaderSize (SA3DBox.base b) =? 8)];
    repeat rewrite <- app_assoc; reflexivity.
Qed.

Lemma map_bytes_length l : length (map_bytes l) = (4 * length l)%nat.
Proof.
  induction l as [|v l IH]; [reflexivity|].
  unfold map_bytes in *. cbn [flat_map length].
  rewrite length_app, be_split_length, IH. lia.
Qed.

(** ** SA3DBox: what [create] builds *)

Lemma iota_length k : forall i, length (iota k i) = k.
Proof. induction k; intros; simpl; auto. Qed.

Lemma iota_u32 k : forall i,
  0 <= i -> i + Z.of_nat k <= 2 ^ 32 -> Forall Int.is_u32 (iota k i).
Proof.
  induction k as [|k IH]; intros i Hi Hk; simpl; constructor.
  - unfold Int.is_u32. lia.
  - apply IH; lia.
Qed.

Lemma create_map_spec k : forall i b,
  0 <= i -> i + Z.of_nat k <= 2 ^ 32 ->
  Int.is_u32 (Box.m_iContentSize (SA3DBox.base b)) ->
  SA3DBox.create_map k i b
  = with_map_content (iota k i)
      (Int.u32 (Box.m_iContentSize (SA3DBox.base b) + 4 * Z.of_nat k)) b.
Proof.
  induction k as [|k IH]; intros i b Hi Hk Hc.
  - cbn [SA3DBox.create_map iota]. unfold with_map_content.
    rewrite app_nil_r, Z.add_0_r, u32_small by exact Hc.
    now destruct b as [[nm p h c] ? ? ? ? ? ? ? ? ? ?].
  - cbn [SA3DBox.create_map iota].
    destruct k as [|k].
    + cbn [SA3DBox.create_map iota]. unfold with_map_content.
      now destruct b as [[nm p h c] ? ? ? ? ? ? ? ? ? ?].
    + rewrite IH.
      * rewrite (u32_small (i + 1)) by lia.
        destruct b as [[nm p h c] ? ? ? ? ? ? ? ? ? ?].
        unfold with_map_content. sa3d_fields.
        rewrite <- app_assoc. cbn [app].
        f_equal. f_equal.
        destruct (u32_decomp (c + 4)) as [q Hq].
        eapply u32_congr with (k := q). rewrite Hq. lia.
      * apply u32_range.
      * rewrite u32_small by lia. lia.
      * destruct b as [[nm p h c] ? ? ? ? ? ? ? ? ? ?]. sa3d_fields.
        apply u32_range.
Qed.

Lemma create_closed n : 0 <= n < 2 ^ 31 -> SA3DBox.create n = created n.
Proof.
  intros Hn. unfold SA3DBox.create. cbv zeta.
  rewrite (u32_small n) by lia.
  rewrite create_map_spec.
  - unfold created, with_map_content. sa3d_fields.
    change (Int.u32 (Int.u32 (Int.u32 (Int.u32 (Int.u32 (Int.u32 (0 + 1) + 1) + 4) + 1) + 1) + 4))
      with 12.
    rewrite Z2Nat.id by lia. reflexivity.
  - lia.
  - rewrite Z2Nat.id by lia. lia.
  - sa3d_fields. apply u32_range.
Qed.

(** ** SA3DBox: what [load] reads back *)

Lemma load_map_remaining l : forall fs b rest,
  0 <= IO.gpos fs ->
  Forall Int.is_u32 l ->
  remaining fs = map_bytes l ++ rest ->
  fst (SA3DBox.load_map (length l) fs b)
  = with_map_content l (Box.m_iContentSize (SA3DBox.base b)) b.
Proof.
  induction l as [|v l IH]; intros fs b rest Hpos Hl Hrem.
  - cbn [length SA3DBox.load_map fst]. unfold with_map_content.
    rewrite app_nil_r. now destruct b as [[nm p h c] ? ? ? ? ? ? ? ? ? ?].
  - cbn [length SA3DBox.load_map].
    inversion Hl as [|v' l' Hv Hl']; subst.
    unfold map_bytes in Hrem. cbn [flat_map] in Hrem.
    rewrite <- app_assoc in Hrem.
    destruct (readUint_remaining 4 fs v _ Hpos Hv Hrem) as (fs' & Hr & Hrest & Hp).
    unfold IO.readUint32. rewrite Hr.
    rewrite (IH fs' _ rest Hp Hl' Hrest).
    destruct b as [[nm p h c] ? ? ? ? ? ? ? ? ? ?].
    unfold with_map_content. sa3d_fields.
    rewrite <- app_assoc. reflexivity.
Qed.

Lemma read_header_standard fs iPos iSize name rest :
  0 <= iPos ->
  0 <= iSize < 2 ^ 32 -> iSize <> 1 ->
  length name = 4%nat ->
  remaining (IO.seekg fs iPos) = IO.be_split 4 iSize ++ name ++ rest ->
  exists fs',
    SA3DBox.read_header fs iPos = (iSize, name, fs')
    /\ remaining fs' = rest /\ 0 <= IO.gpos fs'.
Proof.
  intros Hpos Hsz Hne Hlen Hrem. unfold SA3DBox.read_header.
  destruct (readUint_remaining 4 (IO.seekg fs iPos) iSize _ Hpos Hsz Hrem)
    as (fs1 & Hr1 & Hrem1 & Hp1).
  unfold IO.readUint32. rewrite Hr1.
  destruct (read_remaining fs1 name rest Hp1 Hrem1) as (fs2 & Hr2 & Hrem2 & Hp2).
  rewrite Hlen in Hr2. rewrite Hr2.
  destruct (iSize =? 1) eqn:E; [apply Z.eqb_eq in E; contradiction|].
  eauto.
Qed.

Lemma read_header_extended fs iPos iSize name rest :
  0 <= iPos ->
  0 <= iSize < 2 ^ 32 ->
  length name = 4%nat ->
  remaining (IO.seekg fs iPos)
  = IO.be_split 4 1 ++ name ++ IO.be_split 8 iSize ++ rest ->
  exists fs',
    SA3DBox.read_header fs iPos = (iSize, name, fs')
    /\ remaining fs' = rest /\ 0 <= IO.gpos fs'.
Proof.
  intros Hpos Hsz Hlen Hrem. unfold SA3DBox.read_header.
  destruct (readUint_remaining 4 (IO.seekg fs iPos) 1 _ Hpos ltac:(cbn; lia) Hrem)
    as (fs1 & Hr1 & Hrem1 & Hp1).
  unfold IO.readUint32. rewrite Hr1.
  destruct (read_remaining fs1 name _ Hp1 Hrem1) as (fs2 & Hr2 & Hrem2 & Hp2).
  rewrite Hlen in Hr2. rewrite Hr2.
  change (1 =? 1) with true. cbv iota.
  assert (H64 : 0 <= iSize < 2 ^ (8 * Z.of_nat 8)).
  { change (2 ^ (8 * Z.of_nat 8)) with (2 ^ 64). change (2 ^ 64) with 18446744073709551616.
    change (2 ^ 32) with 4294967296 in Hsz. lia. }
  destruct (readUint_remaining 8 fs2 iSize _ Hp2 H64 Hrem2)
    as (fs3 & Hr3 & Hrem3 & Hp3).
  unfold IO.readUint64. rewrite Hr3.
  rewrite u32_i32, u32_small by assumption.
  eauto.
Qed.

Lemma load_content fs iPos iEnd iSize name fs1 b rest :
  0 <= iPos ->
  SA3DBox.read_header fs iPos = (iSize, name, fs1) ->
  0 <= IO.gpos fs1 ->
  remaining fs1 = content_bytes b ++ rest ->
  hd 0 name = 83 ->
  Int.u32 (iPos + iSize) <= iEnd ->
  wire_ok b ->
  SA3DBox.load fs iPos iEnd = inr (image iPos iSize b).
Proof.
  intros Hpos Hhdr Hp1 Hrem Hname Hend [Hv Ht Ho Hg Hn Hc Hc32 Hm].
  destruct b as [[nm p h c] ver ty ord org nrm nch mp e1 e2 e3].
  cbn [SA3DBox.m_iVersion SA3DBox.m_iAmbisonicType SA3DBox.m_iAmbisonicOrder
       SA3DBox.m_iAmbisonicChannelOrdering SA3DBox.m_iAmbisonicNormalization
       SA3DBox.m_iNumChannels SA3DBox.m_ChannelMap] in *.
  unfold SA3DBox.load.
  destruct (iPos <? 0) eqn:E; [apply Z.ltb_lt in E; lia|].
  rewrite Hhdr.
  unfold constants.sizeof_deref_TAG_SA3D. cbn [memcmp].
  rewrite Hname. change (hd 0 constants.TAG_SA3D) with 83.
  change (83 =? 83) with true. cbv iota. change (0 =? 0) with true.
  cbn [negb].
  destruct (Int.u32 (iPos + iSize) >? iEnd) eqn:E2;
    [apply Z.gtb_lt in E2; lia|].
  cbv zeta. unfold content_bytes in Hrem.
  cbn [SA3DBox.m_iVersion SA3DBox.m_iAmbisonicType SA3DBox.m_iAmbisonicOrder
       SA3DBox.m_iAmbisonicChannelOrdering SA3DBox.m_iAmbisonicNormalization
       SA3DBox.m_iNumChannels SA3DBox.m_ChannelMap] in Hrem.
  repeat rewrite <- app_assoc in Hrem.
  unfold IO.readUint8, IO.readUint32.
  destruct (readUint_remaining 1 fs1 _ _ Hp1 Hv Hrem) as (fs2 & Hr2 & Hrem2 & Hp2).
  rewrite Hr2.
  destruct (readUint_remaining 1 fs2 _ _ Hp2 Ht Hrem2) as (fs3 & Hr3 & Hrem3 & Hp3).
  rewrite Hr3.
  destruct (readUint_remaining 4 fs3 _ _ Hp3 Ho Hrem3) as (fs4 & Hr4 & Hrem4 & Hp4).
  rewrite Hr4.
  destruct (readUint_remaining 1 fs4 _ _ Hp4 Hg Hrem4) as (fs5 & Hr5 & Hrem5 & Hp5).
  rewrite Hr5.
  destruct (readUint_remaining 1 fs5 _ _ Hp5 Hn Hrem5) as (fs6 & Hr6 & Hrem6 & Hp6).
  rewrite Hr6.
  assert (Hc' : 0 <= nch < 2 ^ (8 * Z.of_nat 4)).
  { change (2 ^ (8 * Z.of_nat 4)) with (2 ^ 32). lia. }
  destruct (readUint_remaining 4 fs6 _ _ Hp6 Hc' Hrem6) as (fs7 & Hr7 & Hrem7 & Hp7).
  rewrite Hr7.
  f_equal.
  match goal with
  | |- fst (SA3DBox.load_map ?k ?f ?bx) = _ =>
      replace k with (length mp);
      [rewrite (load_map_remaining _ f bx rest Hp7 Hm Hrem7)|]
  end.
  - unfold with_map_content, image. sa3d_fields. reflexivity.
  - sa3d_fields. rewrite Hc. now rewrite Nat2Z.id.
Qed.

Lemma wire_okb_sound b : wire_okb b = true -> wire_ok b.
Proof.
  unfold wire_okb. cbv zeta. intros H.
  repeat (apply andb_prop in H as [H ?]).
  repeat match goal with
         | X : (_ <=? _) = true |- _ => apply Z.leb_le in X
         | X : (_ <? _) = true |- _ => apply Z.ltb_lt in X
         | X : (_ =? _) = true |- _ => apply Z.eqb_eq in X
         end.
  constructor; try lia.
  apply Forall_forall. intros v Hv.
  match goal with
  | X : forallb _ _ = true |- _ =>
      rewrite forallb_forall in X; specialize (X v Hv);
      apply andb_prop in X as [X1 X2];
      apply Z.leb_le in X1; apply Z.ltb_lt in X2
  end.
  unfold Int.is_u32. lia.
Qed.

Lemma created_wire_ok n : 0 <= n < 2 ^ 31 -> wire_ok (created n).
Proof.
  intros Hn. constructor; unfold created; sa3d_fields; try (cbn; lia).
  - apply u32_range.
  - rewrite iota_length, Z2Nat.id; lia.
  - apply iota_u32; [lia | rewrite Z2Nat.id; lia].
Qed.

Lemma created_size n :
  exists k, SA3DBox.size (created n) = 20 + 4 * n + k * 2 ^ 32.
Proof.
  unfold created. sa3d_fields.
  destruct (u32_decomp (12 + 4 * n)) as [k1 H1].
  destruct (u32_decomp (8 + Int.u32 (12 + 4 * n))) as [k2 H2].
  exists (k1 + k2). rewrite H2, H1. ring.
Qed.

Lemma save_length b out :
  length (SA3DBox.save b out)
  = (length out + length (header_bytes b)
     + (12 + 4 * length (SA3DBox.m_ChannelMap b)))%nat.
Proof.
  rewrite save_layout. unfold content_bytes.
  repeat rewrite length_app. repeat rewrite be_split_length.
  rewrite map_bytes_length. lia.
Qed.

(* ------------------------------------------------------------------ *)
(** ** SA3DBox: the claims *)

(** C8.  For a channel count [n > 0], the box returned by [create n] has
    ambisonic order [floor (sqrt n) - 1]: whenever [k] is the integer with
    [k*k <= n < (k+1)*(k+1)], the order is [k - 1]. *)
Theorem create_ambisonic_order (n k : Z) :
  0 < n < 2 ^ 31 -> 0 <= k -> k * k <= n < (k + 1) * (k + 1) ->
  SA3DBox.m_iAmbisonicOrder (SA3DBox.create n) = k - 1.
Proof.
  intros Hn Hk Hsq.
  rewrite create_closed by lia. unfold created. sa3d_fields.
  rewrite (Z.sqrt_unique n k) by (unfold Z.succ; lia).
  apply u32_small.
  assert (1 <= k) by nia. assert (k <= n) by nia. lia.
Qed.

(** [create 4], [create 9] and [create 16] have orders 1, 2 and 3. *)
Lemma create_ambisonic_order_witness :
  SA3DBox.m_iAmbisonicOrder (SA3DBox.create 4) = 1
  /\ SA3DBox.m_iAmbisonicOrder (SA3DBox.create 9) = 2
  /\ SA3DBox.m_iAmbisonicOrder (SA3DBox.create 16) = 3.
Proof.
  split; [|split].
  - apply (create_ambisonic_order 4 2); lia.
  - apply (create_ambisonic_order 9 3); lia.
  - apply (create_ambisonic_order 16 4); lia.
Defined.

(** C6.  For a channel count [n > 0], saving the box [create n] and
    loading the emitted bytes (from position 0, up to their length)
    succeeds, and the loaded box has the version, ambisonic type, order,
    channel ordering, normalization, channel count and channel map of the
    created box. *)
Theorem create_save_load_roundtrip (n g : Z) :
  0 < n < 2 ^ 31 ->
  let b := SA3DBox.create n in
  let bytes := SA3DBox.save b [] in
  exists b',
    SA3DBox.load (IO.mkIn bytes g) 0 (Int.u32 (Z.of_nat (length bytes)))
    = inr b'
    /\ SA3DBox.m_iVersion b' = SA3DBox.m_iVersion b
    /\ SA3DBox.m_iAmbisonicType b' = SA3DBox.m_iAmbisonicType b
    /\ SA3DBox.m_iAmbisonicOrder b' = SA3DBox.m_iAmbisonicOrder b
    /\ SA3DBox.m_iAmbisonicChannelOrdering b'
       = SA3DBox.m_iAmbisonicChannelOrdering b
    /\ SA3DBox.m_iAmbisonicNormalization b'
       = SA3DBox.m_iAmbisonicNormalization b
    /\ SA3DBox.m_iNumChannels b' = SA3DBox.m_iNumChannels b
    /\ SA3DBox.m_ChannelMap b' = SA3DBox.m_ChannelMap b.
Proof.
  intros Hn b bytes. subst b bytes.
  rewrite create_closed by lia.
  set (b := created n).
  destruct (created_size n) as [k Hk]. fold b in Hk.
  pose proof (u32_range (8 + Int.u32 (12 + 4 * n))) as Hsz.
  change (Int.u32 (8 + Int.u32 (12 + 4 * n))) with (SA3DBox.size b) in Hsz.
  assert (Hhdr : header_bytes b
                 = IO.be_split 4 (SA3DBox.size b) ++ constants.TAG_SA3D).
  { reflexivity. }
  assert (Hrem : remaining (IO.seekg (IO.mkIn (SA3DBox.save b []) g) 0)
                 = IO.be_split 4 (SA3DBox.size b) ++ constants.TAG_SA3D
                   ++ content_bytes b ++ []).
  { unfold remaining. cbn [IO.seekg IO.gpos IO.data Z.to_nat skipn].
    rewrite save_layout, Hhdr. cbn [app].
    now rewrite app_nil_r, <- app_assoc. }
  destruct (read_header_standard _ 0 (SA3DBox.size b) constants.TAG_SA3D _
              ltac:(lia) Hsz ltac:(lia) eq_refl Hrem)
    as (fs1 & Hh & Hrem1 & Hp1).
  assert (Hend : Int.u32 (0 + SA3DBox.size b)
                 <= Int.u32 (Z.of_nat (length (SA3DBox.save b [])))).
  { assert (Hlen : Z.of_nat (length (SA3DBox.save b [])) = 20 + 4 * n).
    { rewrite save_length, Hhdr, length_app, be_split_length.
      replace (length (SA3DBox.m_ChannelMap b)) with (Z.to_nat n)
        by (unfold b, created; cbn [SA3DBox.m_ChannelMap];
            now rewrite iota_length).
      change (length constants.TAG_SA3D) with 4%nat. cbn [length]. lia. }
    rewrite Hlen, Z.add_0_l. apply Z.eq_le_incl.
    apply u32_congr with (k := k). exact Hk. }
  exists (image 0 (SA3DBox.size b) b). split.
  - apply (load_content _ 0 _ _ _ fs1 b [] (Z.le_refl 0) Hh Hp1 Hrem1
             eq_refl Hend).
    apply created_wire_ok. lia.
  - unfold image, b, created. sa3d_fields. repeat split; reflexivity.
Qed.

(** The round trip at four channels. *)
Lemma create_save_load_roundtrip_witness :
  0 < 4 < 2 ^ 31
  /\ exists b',
       SA3DBox.load (IO.mkIn (SA3DBox.save (SA3DBox.create 4) []) 0) 0
         (Int.u32 (Z.of_nat (length (SA3DBox.save (SA3DBox.create 4) []))))
       = inr b'
       /\ SA3DBox.m_iVersion b' = SA3DBox.m_iVersion (SA3DBox.create 4)
       /\ SA3DBox.m_iAmbisonicType b'
          = SA3DBox.m_iAmbisonicType (SA3DBox.create 4)
       /\ SA3DBox.m_iAmbisonicOrder b'
          = SA3DBox.m_iAmbisonicOrder (SA3DBox.create 4)
       /\ SA3DBox.m_iAmbisonicChannelOrdering b'
          = SA3DBox.m_iAmbisonicChannelOrdering (SA3DBox.create 4)
       /\ SA3DBox.m_iAmbisonicNormalization b'
          = SA3DBox.m_iAmbisonicNormalization (SA3DBox.create 4)
       /\ SA3DBox.m_iNumChannels b' = SA3DBox.m_iNumChannels (SA3DBox.create 4)
       /\ SA3DBox.m_ChannelMap b' = SA3DBox.m_ChannelMap (SA3DBox.create 4).
Proof.
  split; [lia|].
  apply (create_save_load_roundtrip 4 0). lia.
Defined.

(** C3.  A box with header size 16 is written in the extended form
    (marker 1, tag, 64-bit [size ()]), and loading the emitted bytes
    succeeds; but the loaded box keeps the constructor's header size 8, so
    its content size is the original content size plus 8, not the
    original one. *)
Theorem extended_header_reload_content_size (b : SA3DBox.t) (g iEnd : Z) :
  Box.m_iHeaderSize (SA3DBox.base b) = 16 ->
  Box.m_name (SA3DBox.base b) = constants.TAG_SA3D ->
  0 <= Box.m_iContentSize (SA3DBox.base b) ->
  Box.m_iContentSize (SA3DBox.base b) + 16 < 2 ^ 32 ->
  wire_ok b ->
  SA3DBox.size b <= iEnd ->
  let bytes := SA3DBox.save b [] in
  bytes = IO.be_split 4 1 ++ constants.TAG_SA3D
          ++ IO.be_split 8 (16 + Box.m_iContentSize (SA3DBox.base b))
          ++ content_bytes b
  /\ exists b',
       SA3DBox.load (IO.mkIn bytes g) 0 iEnd = inr b'
       /\ Box.m_iHeaderSize (SA3DBox.base b') = 8
       /\ Box.m_iContentSize (SA3DBox.base b')
          = Box.m_iContentSize (SA3DBox.base b) + 8.
Proof.
  intros Hh Hname Hc0 Hc1 Hok Hend bytes. subst bytes.
  assert (Hsize : SA3DBox.size b = 16 + Box.m_iContentSize (SA3DBox.base b)).
  { unfold SA3DBox.size, Box.size. rewrite Hh. apply u32_small. lia. }
  assert (Hlay : SA3DBox.save b []
                 = IO.be_split 4 1 ++ constants.TAG_SA3D
                   ++ IO.be_split 8 (16 + Box.m_iContentSize (SA3DBox.base b))
                   ++ content_bytes b).
  { rewrite save_layout. unfold header_bytes. cbv zeta.
    rewrite Hh, Hname, Hsize. change (16 =? 16) with true. cbv iota.
    change (firstn 4 constants.TAG_SA3D) with constants.TAG_SA3D.
    cbn [app]. now repeat rewrite <- app_assoc. }
  split; [exact Hlay|].
  assert (Hrem : remaining (IO.seekg (IO.mkIn (SA3DBox.save b []) g) 0)
                 = IO.be_split 4 1 ++ constants.TAG_SA3D
                   ++ IO.be_split 8 (SA3DBox.size b)
                   ++ content_bytes b ++ []).
  { unfold remaining. cbn [IO.seekg IO.gpos IO.data Z.to_nat skipn].
    rewrite Hlay, Hsize, app_nil_r. reflexivity. }
  destruct (read_header_extended _ 0 (SA3DBox.size b) constants.TAG_SA3D _
              ltac:(lia) ltac:(lia) eq_refl Hrem)
    as (fs1 & Hhd & Hrem1 & Hp1).
  exists (image 0 (SA3DBox.size b) b). split; [|split].
  - apply (load_content _ 0 _ _ _ fs1 b [] (Z.le_refl 0) Hhd Hp1 Hrem1
             eq_refl); [|exact Hok].
    rewrite Z.add_0_l, u32_small by lia. exact Hend.
  - reflexivity.
  - unfold image. cbn [SA3DBox.base Box.m_iContentSize].
    rewrite Hsize, u32_small by lia. lia.
Qed.

(** The four-channel box of [create], forced to the 16-byte header form:
    content size 28 before, 36 after the reload. *)
Lemma extended_header_reload_content_size_witness :
  let b := SA3DBox.set_header 16 (SA3DBox.create 4) in
  Box.m_iContentSize (SA3DBox.base b) = 28
  /\ exists b',
       SA3DBox.load (IO.mkIn (SA3DBox.save b []) 0) 0 44 = inr b'
       /\ Box.m_iContentSize (SA3DBox.base b') = 36.
Proof.
  intros b. split; [reflexivity|].
  destruct (extended_header_reload_content_size b 0 44) as [_ (b' & Hl & _ & Hc)].
  - reflexivity.
  - reflexivity.
  - vm_compute. discriminate.
  - vm_compute. reflexivity.
  - apply wire_okb_sound. vm_compute. reflexivity.
  - vm_compute. discriminate.
  - exists b'. split; [exact Hl|]. rewrite Hc. reflexivity.
Defined.

(** C4.  A stream whose tag is "SXXX" (it differs from "SA3D" in three
    of its four bytes) and whose declared size fits the bounds is loaded
    as an SA3D box: the comparison looks at one byte only. *)
Theorem load_accepts_tag_SXXX :
  let tag := bytes_of_string "SXXX" in
  let fs := IO.mkIn ([0; 0; 0; 20] ++ tag ++ repeat 0 12) 0 in
  memcmp tag constants.TAG_SA3D 4 <> 0
  /\ SA3DBox.load fs 0 20
     = inr (SA3DBox.set_content 12 SA3DBox.ctor).
Proof.
  cbv zeta. split.
  - vm_compute. discriminate.
  - vm_compute. reflexivity.
Qed.

(** A stream of 100 bytes declaring an SA3D box of size 100 with no
    channels: [load] succeeds with content size 92, which is not
    [12 + 4 * 0]. *)
Lemma load_content_size_counterexample :
  let fs := IO.mkIn ([0; 0; 0; 100] ++ constants.TAG_SA3D ++ repeat 0 92) 0 in
  exists b,
    SA3DBox.load fs 0 100 = inr b
    /\ SA3DBox.m_iNumChannels b = Z.of_nat (length (SA3DBox.m_ChannelMap b))
    /\ Box.m_iContentSize (SA3DBox.base b)
       <> 12 + 4 * SA3DBox.m_iNumChannels b.
Proof.
  cbv zeta. eexists. split; [vm_compute; reflexivity|].
  split; [reflexivity|]. vm_compute. discriminate.
Qed.

Lemma load_map_length k : forall fs b,
  length (SA3DBox.m_ChannelMap (fst (SA3DBox.load_map k fs b)))
  = (length (SA3DBox.m_ChannelMap b) + k)%nat.
Proof.
  induction k as [|k IH]; intros fs b; cbn [SA3DBox.load_map].
  - cbn [fst]. lia.
  - destruct (IO.readUint32 fs) as [v fs']. rewrite IH.
    destruct b as [[nm p h c] ? ? ? ? ? ? ? ? ? ?].
    sa3d_fields. rewrite length_app. cbn [length]. lia.
Qed.

Lemma load_map_keeps k : forall fs b,
  SA3DBox.base (fst (SA3DBox.load_map k fs b)) = SA3DBox.base b
  /\ SA3DBox.m_iNumChannels (fst (SA3DBox.load_map k fs b))
     = SA3DBox.m_iNumChannels b.
Proof.
  induction k as [|k IH]; intros fs b; cbn [SA3DBox.load_map].
  - auto.
  - destruct (IO.readUint32 fs) as [v fs'].
    destruct (IH fs' (SA3DBox.push_back v b)) as [H1 H2].
    rewrite H1, H2. now destruct b.
Qed.

(** C7, as the code has it.  [create n] builds a channel map of [n]
    entries with channel count [n] and content size [12 + 4 * n] in
    32-bit arithmetic (exactly [12 + 4 * n] while that fits 32 bits).
    Every box returned by [load], in either header form and from any
    position, has as many channel-map entries as its channel count says;
    when the box is in the standard header form (its 32-bit size field is
    not the escape 1) its content size is that size field minus the
    8-byte header: [load] takes it from the stream and does not compare
    it with the channel count. *)
Theorem content_size_create_and_load
  (n : Z) (fs : IO.istream) (iPos iEnd : Z) (b : SA3DBox.t) :
  0 <= n < 2 ^ 31 ->
  SA3DBox.load fs iPos iEnd = inr b ->
  (SA3DBox.m_iNumChannels (SA3DBox.create n) = n
   /\ Z.of_nat (length (SA3DBox.m_ChannelMap (SA3DBox.create n))) = n
   /\ Box.m_iContentSize (SA3DBox.base (SA3DBox.create n))
      = Int.u32 (12 + 4 * SA3DBox.m_iNumChannels (SA3DBox.create n))
   /\ (n <= 1073741820 ->
       Box.m_iContentSize (SA3DBox.base (SA3DBox.create n))
       = 12 + 4 * SA3DBox.m_iNumChannels (SA3DBox.create n)))
  /\ length (SA3DBox.m_ChannelMap b) = Z.to_nat (SA3DBox.m_iNumChannels b)
  /\ (0 <= iPos ->
      fst (IO.readUint32 (IO.seekg fs iPos)) <> 1 ->
      Box.m_iContentSize (SA3DBox.base b)
      = Int.u32 (fst (IO.readUint32 (IO.seekg fs iPos)) - 8)).
Proof.
  intros Hn Hload. split.
  - rewrite create_closed by lia. unfold created. sa3d_fields.
    rewrite iota_length, Z2Nat.id by lia.
    repeat split; try reflexivity.
    intros Hsmall. apply u32_small. lia.
  - unfold SA3DBox.load in Hload.
    assert (Hp : 0 <= iPos ->
                 (if iPos <? 0 then IO.tellg fs else iPos) = iPos).
    { intros H. destruct (iPos <? 0) eqn:E; [apply Z.ltb_lt in E; lia|].
      reflexivity. }
    revert Hload Hp.
    generalize (if iPos <? 0 then IO.tellg fs else iPos). intros p Hload Hp.
    cbv zeta in Hload.
    unfold SA3DBox.read_header in Hload.
    destruct (IO.readUint32 (IO.seekg fs p)) as [iSize fs0] eqn:Er.
    destruct (IO.read fs0 4) as [name fs1].
    destruct (iSize =? 1) eqn:E1.
    + destruct (IO.readUint64 fs1) as [v fs2].
      destruct (negb _); [discriminate|].
      destruct (_ >? iEnd); [discriminate|].
      repeat match type of Hload with
             | context [IO.readUint8 ?f] => destruct (IO.readUint8 f) as [? ?]
             | context [IO.readUint32 ?f] => destruct (IO.readUint32 f) as [? ?]
             end.
      injection Hload as <-.
      match goal with
      | |- context [SA3DBox.load_map ?k ?f ?bx] =>
          rewrite (load_map_length k f bx);
          destruct (load_map_keeps k f bx) as [_ ->]
      end.
      sa3d_fields. cbn [length Nat.add].
      split; [reflexivity|]. intros Hpos Hstd.
      rewrite (Hp Hpos) in Er. rewrite Er in Hstd. cbn [fst] in Hstd.
      apply Z.eqb_eq in E1. contradiction.
    + destruct (negb _); [discriminate|].
      destruct (_ >? iEnd); [discriminate|].
      repeat match type of Hload with
             | context [IO.readUint8 ?f] => destruct (IO.readUint8 f) as [? ?]
             | context [IO.readUint32 ?f] => destruct (IO.readUint32 f) as [? ?]
             end.
      injection Hload as <-.
      match goal with
      | |- context [SA3DBox.load_map ?k ?f ?bx] =>
          rewrite (load_map_length k f bx);
          destruct (load_map_keeps k f bx) as [-> ->]
      end.
      sa3d_fields. cbn [length Nat.add]. split; [reflexivity|].
      intros Hpos _. rewrite (Hp Hpos) in Er. rewrite Er. reflexivity.
Qed.

(** The content-size invariant checked on the four-channel box, on its
    own serialization, and the channel-map length on its serialization
    in the extended header form. *)
Lemma content_size_create_and_load_witness :
  let fs := IO.mkIn (SA3DBox.save (SA3DBox.create 4) []) 0 in
  let fx := IO.mkIn (SA3DBox.save (SA3DBox.set_header 16 (SA3DBox.create 4))
                                  []) 0 in
  Box.m_iContentSize (SA3DBox.base (SA3DBox.create 4))
  = 12 + 4 * SA3DBox.m_iNumChannels (SA3DBox.create 4)
  /\ length (SA3DBox.m_ChannelMap (SA3DBox.create 4))
     = Z.to_nat (SA3DBox.m_iNumChannels (SA3DBox.create 4))
  /\ Box.m_iContentSize (SA3DBox.base (SA3DBox.create 4))
     = Int.u32 (fst (IO.readUint32 (IO.seekg fs 0)) - 8)
  /\ match SA3DBox.load fx 0 44 with
     | inr bx => length (SA3DBox.m_ChannelMap bx)
                 = Z.to_nat (SA3DBox.m_iNumChannels bx)
     | inl _ => False
     end.
Proof.
  intros fs fx.
  destruct (content_size_create_and_load 4 fs 0 36 (SA3DBox.create 4))
    as [(_ & _ & _ & Hc) [Hm Hs]].
  - lia.
  - vm_compute. reflexivity.
  - split; [apply Hc; lia|]. split; [exact Hm|]. split.
    + apply Hs; [lia|]. vm_compute. discriminate.
    + destruct (SA3DBox.load fx 0 44) as [e|bx] eqn:Hx;
        [vm_compute in Hx; discriminate|].
      destruct (content_size_create_and_load 4 fx 0 44 bx) as [_ [Hmx _]];
        [lia | exact Hx | exact Hmx].
Defined.

(* ------------------------------------------------------------------ *)
(** ** Mpeg4Container: tags and positions in a child list *)

Lemma find_first_refers p l : refers_first p l (find_first p l).
Proof.
  induction l as [|x r IH]; cbn [find_first].
  - intros b [].
  - destruct (p x) eqn:Px.
    + exists x. repeat split; auto. intros j b' Hj. lia.
    + destruct (find_first p r) as [i|]; cbn [option_map refers_first] in *.
      * destruct IH as (b & Hn & Hb & Hlt).
        exists b. repeat split; auto.
        intros [|j] b' Hj Hnth; cbn in Hnth.
        -- now inversion Hnth; subst.
        -- eapply Hlt; [|eassumption]. lia.
      * intros b [<-|Hin]; auto.
Qed.

Lemma find_last_refers p l : refers_last p l (find_last p l).
Proof.
  induction l as [|x r IH]; cbn [find_last].
  - intros b [].
  - destruct (find_last p r) as [i|]; cbn [refers_last] in *.
    + destruct IH as (b & Hn & Hb & Hgt).
      exists b. repeat split; auto.
      intros [|j] b' Hj Hnth; [lia|]. cbn in Hnth.
      eapply Hgt; [|eassumption]. lia.
    + destruct (p x) eqn:Px.
      * exists x. repeat split; auto.
        intros [|j] b' Hj Hnth; [lia|]. cbn in Hnth.
        apply IH. eapply nth_error_In; eassumption.
      * intros b [<-|Hin]; auto.
Qed.

Lemma scan_spec l : forall i c,
  Mpeg4Container.scan l i c
  = Mpeg4Container.mk
      (Mpeg4Container.m_listContents c)
      (or_else (shift i (find_last is_moov l)) (Mpeg4Container.m_pMoovBox c))
      (or_else (shift i (find_last is_free l)) (Mpeg4Container.m_pFreeBox c))
      (or_else (Mpeg4Container.m_pFirstMDatBox c)
               (shift i (find_first is_mdat l)))
      (or_else (shift i (find_last is_ftyp l)) (Mpeg4Container.m_pFTYPBox c))
      (Mpeg4Container.m_iFirstMDatPos c)
      (Mpeg4Container.m_iContentSize c).
Proof.
  induction l as [|x r IH]; intros i c.
  - destruct c as [lc pm pf [pd|] pt fp cs]; reflexivity.
  - cbn [Mpeg4Container.scan find_last find_first]. rewrite IH. clear IH.
    fold (is_moov x) (is_free x) (is_mdat x) (is_ftyp x).
    destruct c as [lc pm pf pd pt fp cs].
    destruct (is_moov x), (is_free x), (is_mdat x), (is_ftyp x),
      (find_last is_moov r), (find_last is_free r), (find_first is_mdat r),
      (find_last is_ftyp r), pd;
      cbn; repeat rewrite Nat.add_0_r; repeat rewrite Nat.add_succ_r;
      reflexivity.
Qed.

Lemma shift_0 r : shift 0 r = r.
Proof. now destruct r. Qed.

Lemma or_else_none r : or_else r None = r.
Proof. now destruct r. Qed.

Lemma fold_content_size l : forall c,
  fold_left
    (fun c pBox =>
       Mpeg4Container.set_content_size
         (Int.u32 (Mpeg4Container.m_iContentSize c + Box.size pBox)) c) l c
  = Mpeg4Container.set_content_size
      (total_size l (Mpeg4Container.m_iContentSize c)) c.
Proof.
  induction l as [|x r IH]; intros c; cbn [fold_left total_size].
  - now destruct c.
  - rewrite IH. now destruct c.
Qed.

Lemma load_list_closed l : Mpeg4Container.load_list l = loaded l.
Proof.
  unfold Mpeg4Container.load_list, loaded.
  destruct l as [|x r]; [reflexivity|].
  set (l := x :: r). cbv zeta. rewrite scan_spec.
  repeat rewrite shift_0.
  cbn [Mpeg4Container.set_contents Mpeg4Container.ctor
       Mpeg4Container.m_listContents Mpeg4Container.m_pMoovBox
       Mpeg4Container.m_pFreeBox Mpeg4Container.m_pFirstMDatBox
       Mpeg4Container.m_pFTYPBox Mpeg4Container.m_iFirstMDatPos
       Mpeg4Container.m_iContentSize].
  repeat rewrite or_else_none. cbn [or_else].
  destruct (find_last is_moov l) as [im|]; [|reflexivity].
  cbn [Mpeg4Container.is_null].
  destruct (find_first is_mdat l) as [i|]; [|reflexivity].
  destruct (nth_error l i) as [pMDat|]; [|reflexivity].
  rewrite fold_content_size. reflexivity.
Qed.

Lemma find_first_none p l : none_with p l -> find_first p l = None.
Proof.
  intros H. pose proof (find_first_refers p l) as R.
  destruct (find_first p l) as [i|]; [|reflexivity].
  destruct R as (b & Hn & Hb & _).
  apply nth_error_In in Hn. rewrite (H b Hn) in Hb. discriminate.
Qed.

Lemma find_last_none p l : none_with p l -> find_last p l = None.
Proof.
  intros H. pose proof (find_last_refers p l) as R.
  destruct (find_last p l) as [i|]; [|reflexivity].
  destruct R as (b & Hn & Hb & _).
  apply nth_error_In in Hn. rewrite (H b Hn) in Hb. discriminate.
Qed.

Lemma find_first_some p l b :
  In b l -> p b = true -> exists i, find_first p l = Some i.
Proof.
  intros Hin Hb. pose proof (find_first_refers p l) as R.
  destruct (find_first p l) as [i|]; [eauto|].
  rewrite (R b Hin) in Hb. discriminate.
Qed.

Lemma find_last_some p l b :
  In b l -> p b = true -> exists i, find_last p l = Some i.
Proof.
  intros Hin Hb. pose proof (find_last_refers p l) as R.
  destruct (find_last p l) as [i|]; [eauto|].
  rewrite (R b Hin) in Hb. discriminate.
Qed.

(* ------------------------------------------------------------------ *)
(** ** Mpeg4Container: the claims about [load] *)

(** Two [moov] boxes followed by an [mdat] box: the load succeeds and
    the movie-metadata reference designates child 1, although child 0 is
    the first child tagged [moov]. *)
Lemma load_moov_reference_counterexample :
  let moov0 := Box.mk (bytes_of_string "moov") 0 8 0 in
  let moov1 := Box.mk (bytes_of_string "moov") 8 8 0 in
  let mdat := Box.mk (bytes_of_string "mdat") 16 8 0 in
  let l := [moov0; moov1; mdat] in
  exists c,
    Mpeg4Container.load_list l = Some c
    /\ first_with is_moov l 0
    /\ Mpeg4Container.m_pMoovBox c = Some 1%nat.
Proof.
  cbv zeta. eexists. split; [vm_compute; reflexivity|]. split.
  - eexists. split; [reflexivity|]. split; [reflexivity|]. intros j b' Hj. lia.
  - reflexivity.
Qed.

(** C2, as the code has it.  After a successful load the child list is
    the parsed list; the media-data reference designates the first child
    tagged [mdat] and [m_iFirstMDatPos] is that child's position plus its
    header size; the [moov], [free] and [ftyp] references designate the
    last child bearing the tag (the last two are null when there is
    none). *)
Theorem load_tracked_references (l : list Box.t) (c : Mpeg4Container.t) :
  Mpeg4Container.load_list l = Some c ->
  Mpeg4Container.m_listContents c = l
  /\ (exists i pMDat,
        Mpeg4Container.m_pFirstMDatBox c = Some i
        /\ first_with is_mdat l i
        /\ nth_error l i = Some pMDat
        /\ Mpeg4Container.m_iFirstMDatPos c
           = Int.u32 (Box.m_iPosition pMDat + Box.m_iHeaderSize pMDat))
  /\ (exists i, Mpeg4Container.m_pMoovBox c = Some i /\ last_with is_moov l i)
  /\ refers_last is_free l (Mpeg4Container.m_pFreeBox c)
  /\ refers_last is_ftyp l (Mpeg4Container.m_pFTYPBox c).
Proof.
  rewrite load_list_closed. unfold loaded.
  pose proof (find_last_refers is_moov l) as Rm.
  pose proof (find_first_refers is_mdat l) as Rd.
  destruct (find_last is_moov l) as [im|] eqn:Em; [|discriminate].
  destruct (find_first is_mdat l) as [i|] eqn:Ed; [|discriminate].
  destruct (nth_error l i) as [pMDat|] eqn:En; [|discriminate].
  intros [= <-]. cbn.
  split; [reflexivity|]. split; [|split; [|split]].
  - exists i, pMDat. auto.
  - exists im. auto.
  - apply find_last_refers.
  - apply find_last_refers.
Qed.

(** A file made of [ftyp], [moov], [moov], [mdat], [mdat]. *)
Lemma load_tracked_references_witness :
  let l := [Box.mk (bytes_of_string "ftyp") 0 8 8;
            Box.mk (bytes_of_string "moov") 16 8 0;
            Box.mk (bytes_of_string "moov") 24 8 0;
            Box.mk (bytes_of_string "mdat") 32 16 4;
            Box.mk (bytes_of_string "mdat") 52 8 4] in
  exists c,
    Mpeg4Container.load_list l = Some c
    /\ Mpeg4Container.m_pFirstMDatBox c = Some 3%nat
    /\ Mpeg4Container.m_pMoovBox c = Some 2%nat
    /\ Mpeg4Container.m_iFirstMDatPos c = 48
    /\ first_with is_mdat l 3
    /\ last_with is_moov l 2.
Proof.
  intros l.
  assert (Hl : Mpeg4Container.load_list l
               = Some (Mpeg4Container.mk l (Some 2%nat) None (Some 3%nat)
                         (Some 0%nat) 48 64)).
  { vm_compute. reflexivity. }
  destruct (load_tracked_references l _ Hl)
    as (_ & (i & pMDat & Hi & Hf & _ & _) & (j & Hj & Hlast) & _ & _).
  eexists. split; [exact Hl|].
  cbn [Mpeg4Container.m_pFirstMDatBox Mpeg4Container.m_pMoovBox
       Mpeg4Container.m_iFirstMDatPos] in *.
  injection Hi as <-. injection Hj as <-. auto.
Defined.

(** C5.  A parsed list without a [moov] box, or without an [mdat] box,
    is refused (null result); a list holding a [moov], an [mdat], an
    [ftyp] and a [free] box loads, and each of the four references is
    non-null and designates a child bearing its tag. *)
Theorem load_list_completeness (l : list Box.t) :
  (none_with is_moov l -> Mpeg4Container.load_list l = None)
  /\ (none_with is_mdat l -> Mpeg4Container.load_list l = None)
  /\ ((exists b, In b l /\ is_moov b = true) ->
      (exists b, In b l /\ is_mdat b = true) ->
      (exists b, In b l /\ is_ftyp b = true) ->
      (exists b, In b l /\ is_free b = true) ->
      exists c im id it ifr bm bd bt bf,
        Mpeg4Container.load_list l = Some c
        /\ Mpeg4Container.m_listContents c = l
        /\ Mpeg4Container.m_pMoovBox c = Some im
        /\ nth_error l im = Some bm /\ is_moov bm = true
        /\ Mpeg4Container.m_pFirstMDatBox c = Some id
        /\ nth_error l id = Some bd /\ is_mdat bd = true
        /\ Mpeg4Container.m_pFTYPBox c = Some it
        /\ nth_error l it = Some bt /\ is_ftyp bt = true
        /\ Mpeg4Container.m_pFreeBox c = Some ifr
        /\ nth_error l ifr = Some bf /\ is_free bf = true).
Proof.
  rewrite load_list_closed. unfold loaded. split; [|split].
  - intros H. now rewrite (find_last_none _ _ H).
  - intros H. rewrite (find_first_none _ _ H).
    now destruct (find_last is_moov l).
  - intros (bm & Hm & Pm) (bd & Hd & Pd) (bt & Ht & Pt) (bf & Hf & Pf).
    pose proof (find_last_refers is_moov l) as Rm.
    pose proof (find_first_refers is_mdat l) as Rd.
    pose proof (find_last_refers is_ftyp l) as Rt.
    pose proof (find_last_refers is_free l) as Rf.
    destruct (find_last_some _ _ _ Hm Pm) as [im Em].
    destruct (find_first_some _ _ _ Hd Pd) as [id Ed].
    destruct (find_last_some _ _ _ Ht Pt) as [it Et].
    destruct (find_last_some _ _ _ Hf Pf) as [ifr Ef].
    rewrite Em, Ed, Et, Ef in *.
    destruct Rm as (xm & Hxm & Pxm & _).
    destruct Rd as (xd & Hxd & Pxd & _).
    destruct Rt as (xt & Hxt & Pxt & _).
    destruct Rf as (xf & Hxf & Pxf & _).
    rewrite Hxd.
    eexists _, im, id, it, ifr, xm, xd, xt, xf.
    split; [reflexivity|]. cbn. repeat split; assumption.
Qed.

(** A list without [moov], a list without [mdat], and a complete
    list. *)
Lemma load_list_completeness_witness :
  let ftyp := Box.mk (bytes_of_string "ftyp") 0 8 8 in
  let moov := Box.mk (bytes_of_string "moov") 16 8 0 in
  let free := Box.mk (bytes_of_string "free") 24 8 0 in
  let mdat := Box.mk (bytes_of_string "mdat") 32 8 4 in
  Mpeg4Container.load_list [ftyp; free; mdat] = None
  /\ Mpeg4Container.load_list [ftyp; moov; free] = None
  /\ exists c,
       Mpeg4Container.load_list [ftyp; moov; free; mdat] = Some c
       /\ Mpeg4Container.m_pFTYPBox c = Some 0%nat
       /\ Mpeg4Container.m_pMoovBox c = Some 1%nat
       /\ Mpeg4Container.m_pFreeBox c = Some 2%nat
       /\ Mpeg4Container.m_pFirstMDatBox c = Some 3%nat.
Proof.
  intros ftyp moov free mdat. split; [|split].
  - destruct (load_list_completeness [ftyp; free; mdat]) as (H & _ & _).
    apply H. intros b [<-|[<-|[<-|[]]]]; reflexivity.
  - destruct (load_list_completeness [ftyp; moov; free]) as (_ & H & _).
    apply H. intros b [<-|[<-|[<-|[]]]]; reflexivity.
  - destruct (load_list_completeness [ftyp; moov; free; mdat])
      as (_ & _ & H).
    destruct H as (c & im & id & it & ifr & bm & bd & bt & bf & Hl & _).
    + exists moov. split; [cbn; auto | reflexivity].
    + exists mdat. split; [cbn; auto | reflexivity].
    + exists ftyp. split; [cbn; auto | reflexivity].
    + exists free. split; [cbn; auto | reflexivity].
    + exists c. split; [exact Hl|].
      vm_compute in Hl. injection Hl as <-. repeat split; reflexivity.
Defined.

(* ------------------------------------------------------------------ *)
(** ** Mpeg4Container: merge *)

(** C9.  [merge] does not return: whatever the container and the
    argument, the call ends in [exit], the container is the one it was
    called on, and nothing but the diagnostic line has been produced. *)
Theorem merge_terminates_process
  (self : Mpeg4Container.t) (pElement : Box.t) (cerr : list string) :
  Mpeg4Container.merge self pElement cerr
  = (Exits 0, self, cerr ++ ["Cannot merge mpeg4 files"%string])
  /\ fst (fst (Mpeg4Container.merge self pElement cerr)) <> Returns.
Proof. split; [reflexivity | discriminate]. Qed.

(* ------------------------------------------------------------------ *)
(** ** Mpeg4Container: the offset delta of [save] *)

Lemma sizes_app l1 l2 : sizes (l1 ++ l2) = sizes l1 + sizes l2.
Proof. unfold sizes. induction l1 as [|x r IH]; cbn [app fold_right]; lia. Qed.

Lemma none_with_cons p x l :
  none_with p (x :: l) <-> p x = false /\ none_with p l.
Proof.
  unfold none_with. split.
  - intros H. split; [apply H; now left | intros b Hb; apply H; now right].
  - intros [Hx Hl] b [<-|Hb]; auto.
Qed.

Lemma none_with_app p l1 l2 :
  none_with p (l1 ++ l2) <-> none_with p l1 /\ none_with p l2.
Proof.
  unfold none_with. split.
  - intros H. split; intros b Hb; apply H, in_or_app; auto.
  - intros [H1 H2] b Hb. apply in_app_or in Hb as [Hb|Hb]; auto.
Qed.

Lemma new_pos_first_mdat l1 : forall a m l2,
  none_with is_mdat l1 -> is_mdat m = true ->
  Mpeg4Container.new_pos (l1 ++ m :: l2) a
  = Int.u32 (a + sizes l1 + Box.m_iHeaderSize m).
Proof.
  induction l1 as [|x r IH]; intros a m l2 Hnone Hm;
    cbn [app Mpeg4Container.new_pos sizes fold_right].
  - change (memcmp (Box.m_name m) constants.TAG_MDAT 4 =? 0) with (is_mdat m).
    rewrite Hm. f_equal. lia.
  - apply none_with_cons in Hnone as [Hx Hr].
    change (memcmp (Box.m_name x) constants.TAG_MDAT 4 =? 0) with (is_mdat x).
    rewrite Hx, IH by assumption.
    destruct (u32_decomp (a + Box.size x)) as [k Hk].
    apply u32_congr with (k := k). rewrite Hk.
    change (fold_right (fun b s => Box.size b + s) 0 r) with (sizes r). lia.
Qed.

Lemma new_pos_range l : forall a,
  0 <= a < 2 ^ 32 -> 0 <= Mpeg4Container.new_pos l a < 2 ^ 32.
Proof.
  induction l as [|x r IH]; intros a Ha; cbn [Mpeg4Container.new_pos].
  - exact Ha.
  - destruct (_ =? 0); [apply u32_range | apply IH, u32_range].
Qed.

(** [save] as the pair of the resized container and its second loop. *)
Lemma save_unfold resize Box_save self fsIn fsOut :
  Mpeg4Container.save resize Box_save self fsIn fsOut
  = (resize self,
     fold_left
       (fun st pBox =>
          Box_save pBox (fst st) (snd st)
                   (Int.i32 (Mpeg4Container.save_delta resize self)))
       (Mpeg4Container.m_listContents (resize self)) (fsIn, fsOut)).
Proof. reflexivity. Qed.

(** C10.  The delta is an unsigned 32-bit difference: when the new
    media-data start is below the load-time position, the [uint32_t]
    delta is the difference plus [2^32], a positive number, and each
    child's [save] receives its reinterpretation as an [int32_t]. *)
Theorem save_delta_wraps
  (resize : Mpeg4Container.t -> Mpeg4Container.t)
  (Box_save : Box.t -> IO.istream -> IO.ostream -> Z
              -> IO.istream * IO.ostream)
  (self : Mpeg4Container.t) (fsIn : IO.istream) (fsOut : IO.ostream) :
  let c := resize self in
  let iNewPos := Mpeg4Container.new_pos (Mpeg4Container.m_listContents c) 0 in
  let iDelta := Mpeg4Container.save_delta resize self in
  0 <= Mpeg4Container.m_iFirstMDatPos c < 2 ^ 32 ->
  iNewPos < Mpeg4Container.m_iFirstMDatPos c ->
  iDelta = (iNewPos - Mpeg4Container.m_iFirstMDatPos c) mod 2 ^ 32
  /\ iDelta = iNewPos - Mpeg4Container.m_iFirstMDatPos c + 2 ^ 32
  /\ 0 < iDelta < 2 ^ 32
  /\ snd (Mpeg4Container.save resize Box_save self fsIn fsOut)
     = fold_left
         (fun st pBox => Box_save pBox (fst st) (snd st) (Int.i32 iDelta))
         (Mpeg4Container.m_listContents c) (fsIn, fsOut).
Proof.
  intros c iNewPos iDelta Hfirst Hlt.
  assert (Hnew : 0 <= iNewPos < 2 ^ 32) by (apply new_pos_range; lia).
  assert (Hd : iDelta = iNewPos - Mpeg4Container.m_iFirstMDatPos c + 2 ^ 32).
  { subst iDelta. unfold Mpeg4Container.save_delta. cbv zeta.
    fold c. fold iNewPos.
    rewrite (u32_congr _ (iNewPos - Mpeg4Container.m_iFirstMDatPos c + 2 ^ 32) (-1))
      by lia.
    apply u32_small. lia. }
  split; [reflexivity|]. split; [exact Hd|]. split; [lia|].
  rewrite save_unfold. reflexivity.
Qed.

(** A container loaded with its media data at offset 100 whose only
    child now is an [mdat] box with an 8-byte header: the delta is
    [8 - 100 + 2^32]. *)
Lemma save_delta_wraps_witness :
  let mdat := Box.mk (bytes_of_string "mdat") 0 8 4 in
  let self := Mpeg4Container.mk [mdat] None None (Some 0%nat) None 100 12 in
  Mpeg4Container.save_delta (fun c => c) self = 4294967204
  /\ 0 < Mpeg4Container.save_delta (fun c => c) self < 2 ^ 32.
Proof.
  intros mdat self.
  destruct (save_delta_wraps (fun c => c) (fun _ i o _ => (i, o)) self
              (IO.mkIn [] 0) [])
    as (_ & Hd & Hr & _).
  - cbn. lia.
  - vm_compute. reflexivity.
  - split; [rewrite Hd; vm_compute; reflexivity | exact Hr].
Defined.

(** *** Boxes laid out back to back *)

Lemma tiled_app l1 : forall p l2,
  tiled p (l1 ++ l2) <-> tiled p l1 /\ tiled (total_size l1 p) l2.
Proof.
  induction l1 as [|x r IH]; intros p l2; cbn [app tiled total_size fold_left].
  - tauto.
  - rewrite IH. unfold total_size. tauto.
Qed.

Lemma total_size_sizes l : forall a,
  exists k, total_size l a = a + sizes l + k * 2 ^ 32.
Proof.
  induction l as [|x r IH]; intros a; cbn [total_size fold_left sizes fold_right].
  - exists 0. lia.
  - destruct (IH (Int.u32 (a + Box.size x))) as [k Hk].
    destruct (u32_decomp (a + Box.size x)) as [k' Hk'].
    exists (k + k'). unfold total_size in Hk. rewrite Hk, Hk'.
    change (fold_right (fun b s => Box.size b + s) 0 r) with (sizes r). lia.
Qed.

Section Tiling.

Variable Box_load : IO.istream -> Z -> Z -> option Box.t.

(** A loaded box records the position it was loaded from, as
    [SA3DBox::load] does with [m_iPosition = iPos]. *)
Hypothesis Box_load_position :
  forall fs iPos iEnd b,
    Box_load fs iPos iEnd = Some b -> Box.m_iPosition b = iPos.

Lemma load_multiple_tiled fuel fs iEnd p0 : forall iPos acc l,
  tiled p0 acc -> iPos = total_size acc p0 ->
  Container.load_multiple Box_load fuel fs iPos iEnd acc = Done l ->
  tiled p0 l.
Proof.
  induction fuel as [|fuel IH]; intros iPos acc l Ht Hp;
    cbn [Container.load_multiple].
  - destruct (iPos <? iEnd); [discriminate|]. now intros [= <-].
  - destruct (iPos <? iEnd); [|now intros [= <-]].
    destruct (Box_load fs iPos iEnd) as [pBox|] eqn:E.
    + apply IH.
      * apply tiled_app. split; [exact Ht|]. cbn [tiled].
        split; [|exact I]. rewrite <- Hp.
        eapply Box_load_position; eassumption.
      * unfold total_size. rewrite fold_left_app. cbn [fold_left].
        fold (total_size acc p0). rewrite <- Hp.
        now rewrite (Box_load_position _ _ _ _ E).
    + now intros [= <-].
Qed.

End Tiling.

(** *** Where the first [mdat] box sits *)

Lemma first_with_split p l i :
  first_with p l i ->
  exists l1 m l2,
    l = l1 ++ m :: l2 /\ length l1 = i /\ p m = true /\ none_with p l1.
Proof.
  intros (m & Hn & Hm & Hlt).
  destruct (nth_error_split l i Hn) as (l1 & l2 & -> & Hlen).
  exists l1, m, l2. repeat split; auto.
  intros b Hb. destruct (In_nth_error _ _ Hb) as [j Hj].
  apply (Hlt j b).
  - rewrite <- Hlen. apply nth_error_Some. congruence.
  - rewrite nth_error_app1; [exact Hj|]. apply nth_error_Some. congruence.
Qed.

(** A prefix free of [p] stops before the first box satisfying [p]. *)
Lemma prefix_before_first p a : forall l1 m l2 b,
  l1 ++ m :: l2 = a ++ b ->
  none_with p a -> p m = true ->
  exists b1, l1 = a ++ b1 /\ b = b1 ++ m :: l2.
Proof.
  induction a as [|y a IH]; intros l1 m l2 b Heq Ha Hm.
  - exists l1. auto.
  - apply none_with_cons in Ha as [Hy Ha].
    destruct l1 as [|z l1]; cbn [app] in Heq.
    + injection Heq as -> _. congruence.
    + injection Heq as -> Heq.
      destruct (IH l1 m l2 b Heq Ha Hm) as (b1 & -> & ->).
      exists b1. auto.
Qed.

Lemma new_pos_same_layout l l' :
  Forall2 same_layout l l' ->
  forall a, Mpeg4Container.new_pos l a = Mpeg4Container.new_pos l' a.
Proof.
  induction 1 as [|x y r r' (Hn & Hh & Hs) _ IH]; intros a;
    cbn [Mpeg4Container.new_pos]; [reflexivity|].
  rewrite Hn, Hh, Hs. destruct (_ =? 0); [reflexivity | apply IH].
Qed.

Lemma load_first_mdat_position Box_load fuel fs c :
  (forall fs iPos iEnd b,
     Box_load fs iPos iEnd = Some b -> Box.m_iPosition b = iPos) ->
  Mpeg4Container.load Box_load fuel fs = Done (Some c) ->
  exists l1 m l2 k,
    Mpeg4Container.m_listContents c = l1 ++ m :: l2
    /\ none_with is_mdat l1 /\ is_mdat m = true
    /\ Mpeg4Container.m_iFirstMDatPos c
       = sizes l1 + Box.m_iHeaderSize m + k * 2 ^ 32.
Proof.
  intros Hpos Hload. unfold Mpeg4Container.load in Hload. cbv zeta in Hload.
  destruct (Container.load_multiple _ _ _ _ _ _) as [boxes|] eqn:E;
    [|discriminate].
  injection Hload as Hload.
  apply (load_multiple_tiled Box_load Hpos _ _ _ 0) in E;
    [|exact I | reflexivity].
  rewrite load_list_closed in Hload. unfold loaded in Hload.
  pose proof (find_first_refers is_mdat boxes) as Rd.
  destruct (find_last is_moov boxes); [|discriminate].
  destruct (find_first is_mdat boxes) as [i|]; [|discriminate].
  destruct (first_with_split _ _ _ Rd) as (l1 & m & l2 & -> & Hlen & Hm & Hnone).
  rewrite nth_error_app2, Hlen, Nat.sub_diag in Hload by lia.
  cbn [nth_error] in Hload. injection Hload as <-.
  cbn [Mpeg4Container.m_listContents Mpeg4Container.m_iFirstMDatPos].
  apply tiled_app in E as [_ [Hp _]].
  destruct (total_size_sizes l1 0) as [k1 Hk1].
  destruct (u32_decomp (Box.m_iPosition m + Box.m_iHeaderSize m)) as [k2 Hk2].
  exists l1, m, l2, (k1 + k2). repeat split; auto.
  rewrite Hk2, Hp, Hk1. ring.
Qed.

(** C1.  For a container returned by [load] (the boxes having been
    parsed back to back by a loader that records each box's position):
    - whenever [save] runs on a container that still carries the
      load-time [m_iFirstMDatPos] and whose first [mdat] child [m] is
      preceded by the children [l1], its delta is the 32-bit difference
      between [sizes l1 + header size of m] and that position, and every
      child's [save] is called with it, in list order;
    - if the child list at save time is the loaded list with one box [x]
      inserted before the first [mdat] box, and [resize] changes no
      child's tag, header size or size, the delta is [size x]. *)
Theorem save_delta_after_load
  (Box_load : IO.istream -> Z -> Z -> option Box.t)
  (resize : Mpeg4Container.t -> Mpeg4Container.t)
  (Box_save : Box.t -> IO.istream -> IO.ostream -> Z
              -> IO.istream * IO.ostream)
  (fuel : nat) (fs : IO.istream) (c : Mpeg4Container.t) :
  (forall fs iPos iEnd b,
     Box_load fs iPos iEnd = Some b -> Box.m_iPosition b = iPos) ->
  Mpeg4Container.load Box_load fuel fs = Done (Some c) ->
  (forall self l1 m l2 fsIn fsOut,
     Mpeg4Container.m_iFirstMDatPos (resize self)
     = Mpeg4Container.m_iFirstMDatPos c ->
     Mpeg4Container.m_listContents (resize self) = l1 ++ m :: l2 ->
     none_with is_mdat l1 -> is_mdat m = true ->
     let iDelta := Mpeg4Container.save_delta resize self in
     iDelta = Int.u32 (sizes l1 + Box.m_iHeaderSize m
                       - Mpeg4Container.m_iFirstMDatPos c)
     /\ Mpeg4Container.save resize Box_save self fsIn fsOut
        = (resize self,
           fold_left
             (fun st pBox => Box_save pBox (fst st) (snd st) (Int.i32 iDelta))
             (l1 ++ m :: l2) (fsIn, fsOut)))
  /\ (forall self a b x fsIn fsOut,
        Mpeg4Container.m_listContents c = a ++ b ->
        none_with is_mdat a -> is_mdat x = false ->
        Mpeg4Container.m_listContents self = a ++ x :: b ->
        Mpeg4Container.m_iFirstMDatPos (resize self)
        = Mpeg4Container.m_iFirstMDatPos c ->
        Forall2 same_layout (Mpeg4Container.m_listContents self)
                (Mpeg4Container.m_listContents (resize self)) ->
        Mpeg4Container.save_delta resize self = Box.size x
        /\ Mpeg4Container.save resize Box_save self fsIn fsOut
           = (resize self,
              fold_left
                (fun st pBox =>
                   Box_save pBox (fst st) (snd st) (Int.i32 (Box.size x)))
                (Mpeg4Container.m_listContents (resize self))
                (fsIn, fsOut))).
Proof.
  intros Hpos Hload. split.
  - intros self l1 m l2 fsIn fsOut Hfirst Hlist Hnone Hm iDelta.
    assert (Hd : iDelta = Int.u32 (sizes l1 + Box.m_iHeaderSize m
                                   - Mpeg4Container.m_iFirstMDatPos c)).
    { subst iDelta. unfold Mpeg4Container.save_delta. cbv zeta.
      rewrite Hlist, Hfirst, new_pos_first_mdat by assumption.
      destruct (u32_decomp (0 + sizes l1 + Box.m_iHeaderSize m)) as [k Hk].
      apply u32_congr with (k := k). rewrite Hk. lia. }
    split; [exact Hd|].
    rewrite save_unfold, Hlist. reflexivity.
  - intros self a b x fsIn fsOut Hc Ha Hx Hself Hfirst Hsame.
    assert (Hd : Mpeg4Container.save_delta resize self = Box.size x);
      [|split; [exact Hd | rewrite save_unfold, Hd; reflexivity]].
    destruct (load_first_mdat_position _ _ _ _ Hpos Hload)
      as (l1 & m & l2 & k & Hl & Hnone & Hm & Hfp).
    rewrite Hc in Hl. symmetry in Hl.
    destruct (prefix_before_first is_mdat a l1 m l2 b Hl Ha Hm)
      as (b1 & -> & ->).
    unfold Mpeg4Container.save_delta. cbv zeta.
    rewrite <- (new_pos_same_layout _ _ Hsame), Hself, Hfirst, Hfp.
    replace (a ++ x :: b1 ++ m :: l2) with ((a ++ x :: b1) ++ m :: l2)
      by (rewrite <- app_assoc; reflexivity).
    rewrite new_pos_first_mdat.
    + repeat rewrite sizes_app. cbn [sizes fold_right].
      fold (sizes b1).
      destruct (u32_decomp (0 + (sizes a + (Box.size x + sizes b1))
                            + Box.m_iHeaderSize m)) as [k' Hk'].
      rewrite (u32_congr _ (Box.size x) (k' - k)) by (rewrite Hk'; lia).
      apply u32_small. apply u32_range.
    + apply none_with_app. apply none_with_app in Hnone as [Hna Hnb].
      split; [exact Hna|]. apply none_with_cons. auto.
    + exact Hm.
Qed.

Lemma plain_box_load_position fs iPos iEnd b :
  plain_box_load fs iPos iEnd = Some b -> Box.m_iPosition b = iPos.
Proof.
  unfold plain_box_load.
  destruct (IO.readUint32 _) as [iSize fs1].
  destruct (IO.read fs1 4) as [name fs2].
  destruct (_ || _); [discriminate|]. now intros [= <-].
Qed.

(** A file made of [ftyp] (8 bytes), [moov] (8 bytes) and [mdat]
    (12 bytes), into which a 36-byte [SA3D] box is inserted after
    [ftyp]: the delta is 36. *)
Lemma save_delta_after_load_witness :
  let file := [0; 0; 0; 8] ++ bytes_of_string "ftyp"
              ++ [0; 0; 0; 8] ++ bytes_of_string "moov"
              ++ [0; 0; 0; 12] ++ bytes_of_string "mdat" ++ [1; 2; 3; 4] in
  let ftyp := Box.mk (bytes_of_string "ftyp") 0 8 0 in
  let moov := Box.mk (bytes_of_string "moov") 8 8 0 in
  let mdat := Box.mk (bytes_of_string "mdat") 16 8 4 in
  let sa3d := Box.mk constants.TAG_SA3D 0 8 28 in
  let c := Mpeg4Container.mk [ftyp; moov; mdat]
             (Some 1%nat) None (Some 2%nat) (Some 0%nat) 24 28 in
  Mpeg4Container.load plain_box_load 5 (IO.mkIn file 28) = Done (Some c)
  /\ Mpeg4Container.save_delta (fun s => s)
       (Mpeg4Container.set_contents [ftyp; sa3d; moov; mdat] c)
     = 36.
Proof.
  intros file ftyp moov mdat sa3d c.
  assert (Hload : Mpeg4Container.load plain_box_load 5 (IO.mkIn file 28)
                  = Done (Some c)).
  { vm_compute. reflexivity. }
  split; [exact Hload|].
  destruct (save_delta_after_load plain_box_load (fun s => s)
              (fun _ i o _ => (i, o)) 5 (IO.mkIn file 28) c
              plain_box_load_position Hload) as [_ H].
  destruct (H (Mpeg4Container.set_contents [ftyp; sa3d; moov; mdat] c)
              [ftyp] [moov; mdat] sa3d (IO.mkIn file 0) []) as [Hd _].
  7: { rewrite Hd. vm_compute. reflexivity. }
  - reflexivity.
  - intros b [<-|[]]. reflexivity.
  - reflexivity.
  - reflexivity.
  - reflexivity.
  - cbn [Mpeg4Container.set_contents Mpeg4Container.m_listContents].
    repeat constructor.
Defined.

(* ================================================================== *)
(** * Further properties of the code *)

(** ** Big-endian digits, the other way round *)

Lemma be_fold_acc l : forall acc,
  fold_left (fun a b => a * 256 + b) l acc
  = acc * 2 ^ (8 * Z.of_nat (length l)) + IO.be_combine l.
Proof.
  unfold IO.be_combine.
  induction l as [|x l IH]; intros acc; cbn [fold_left length].
  - change (2 ^ (8 * Z.of_nat 0)) with 1. lia.
  - rewrite IH, (IH (0 * 256 + x)).
    replace (8 * Z.of_nat (S (length l))) with (8 * Z.of_nat (length l) + 8)
      by lia.
    rewrite Z.pow_add_r by lia. change (2 ^ 8) with 256. ring.
Qed.

Lemma be_combine_cons x l :
  IO.be_combine (x :: l) = x * 2 ^ (8 * Z.of_nat (length l)) + IO.be_combine l.
Proof.
  unfold IO.be_combine at 1. cbn [fold_left]. rewrite be_fold_acc. ring.
Qed.

Lemma be_combine_range l :
  Forall is_byte l -> 0 <= IO.be_combine l < 2 ^ (8 * Z.of_nat (length l)).
Proof.
  induction 1 as [|x l Hx _ IH].
  - cbn. lia.
  - rewrite be_combine_cons. cbn [length].
    replace (8 * Z.of_nat (S (length l))) with (8 * Z.of_nat (length l) + 8)
      by lia.
    rewrite Z.pow_add_r by lia. change (2 ^ 8) with 256.
    unfold is_byte in Hx.
    assert (0 < 2 ^ (8 * Z.of_nat (length l))) by (apply Z.pow_pos_nonneg; lia).
    nia.
Qed.

Lemma be_split_shift k : forall q r,
  IO.be_split k (q * 2 ^ (8 * Z.of_nat k) + r) = IO.be_split k r.
Proof.
  induction k as [|k IH]; intros q r; cbn [IO.be_split]; [reflexivity|].
  replace (8 * Z.of_nat (S k)) with (8 * Z.of_nat k + 8) by lia.
  rewrite Z.pow_add_r by lia. change (2 ^ 8) with 256.
  assert (Hp : 0 < 2 ^ (8 * Z.of_nat k)) by (apply Z.pow_pos_nonneg; lia).
  f_equal.
  - replace (q * (2 ^ (8 * Z.of_nat k) * 256) + r)
      with (r + (q * 256) * 2 ^ (8 * Z.of_nat k)) by ring.
    rewrite Z.div_add by lia.
    rewrite Z.add_mod, Z.mod_mul, Z.add_0_r, Z.mod_mod by lia. reflexivity.
  - replace (q * (2 ^ (8 * Z.of_nat k) * 256) + r)
      with ((q * 256) * 2 ^ (8 * Z.of_nat k) + r) by ring.
    apply IH.
Qed.

Lemma be_split_combine l :
  Forall is_byte l -> IO.be_split (length l) (IO.be_combine l) = l.
Proof.
  induction 1 as [|x l Hx Hl IH]; [reflexivity|].
  cbn [length IO.be_split]. rewrite be_combine_cons.
  pose proof (be_combine_range l Hl) as Hr.
  assert (Hp : 0 < 2 ^ (8 * Z.of_nat (length l))) by (apply Z.pow_pos_nonneg; lia).
  f_equal.
  - rewrite Z.add_comm, Z.div_add by lia.
    rewrite Z.div_small by lia. unfold is_byte in Hx.
    rewrite Z.add_0_l. apply Z.mod_small. lia.
  - rewrite be_split_shift. exact IH.
Qed.

(** ** SA3DBox: what a successful [load] guarantees *)

Lemma load_success_inv fs iPos iEnd b :
  0 <= iPos ->
  SA3DBox.load fs iPos iEnd = inr b ->
  let '(iSize, name, _) := SA3DBox.read_header fs iPos in
  hd 0 name = 83
  /\ Int.u32 (iPos + iSize) <= iEnd
  /\ SA3DBox.base b
     = Box.mk constants.TAG_SA3D iPos 8 (Int.u32 (iSize - 8)).
Proof.
  intros Hpos Hload. unfold SA3DBox.load in Hload.
  destruct (iPos <? 0) eqn:E; [apply Z.ltb_lt in E; lia|].
  destruct (SA3DBox.read_header fs iPos) as [[iSize name] fs1].
  unfold constants.sizeof_deref_TAG_SA3D in Hload. cbn [memcmp] in Hload.
  change (hd 0 constants.TAG_SA3D) with 83 in Hload.
  destruct (hd 0 name =? 83) eqn:En.
  2:{ apply Z.eqb_neq in En.
      destruct (0 =? hd 0 name - 83) eqn:E0;
        [apply Z.eqb_eq in E0; lia | discriminate]. }
  apply Z.eqb_eq in En. change (0 =? 0) with true in Hload.
  cbn [negb] in Hload.
  destruct (Int.u32 (iPos + iSize) >? iEnd) eqn:Eb; [discriminate|].
  cbv zeta in Hload.
  repeat match type of Hload with
         | context [IO.readUint8 ?f] => destruct (IO.readUint8 f) as [? ?]
         | context [IO.readUint32 ?f] => destruct (IO.readUint32 f) as [? ?]
         end.
  injection Hload as <-.
  match goal with
  | |- context [SA3DBox.load_map ?k ?f ?bx] =>
      destruct (load_map_keeps k f bx) as [-> _]
  end.
  split; [exact En|]. split.
  - destruct (Z.gtb_spec (Int.u32 (iPos + iSize)) iEnd); [discriminate | lia].
  - reflexivity.
Qed.

(** X1.  A box returned by [load] carries the tag "SA3D", the position
    it was loaded from and header size 8, and its end, position plus
    [size ()] in 32-bit arithmetic, does not exceed [iEnd]. *)
Theorem load_box_within_bounds fs iPos iEnd b :
  0 <= iPos ->
  SA3DBox.load fs iPos iEnd = inr b ->
  Box.m_name (SA3DBox.base b) = constants.TAG_SA3D
  /\ Box.m_iPosition (SA3DBox.base b) = iPos
  /\ Box.m_iHeaderSize (SA3DBox.base b) = 8
  /\ Int.u32 (Box.m_iPosition (SA3DBox.base b) + SA3DBox.size b) <= iEnd.
Proof.
  intros Hpos Hload.
  pose proof (load_success_inv fs iPos iEnd b Hpos Hload) as H.
  destruct (SA3DBox.read_header fs iPos) as [[iSize name] fs1].
  destruct H as (_ & Hend & Hbase).
  unfold SA3DBox.size, Box.size. rewrite Hbase.
  cbn [Box.m_name Box.m_iPosition Box.m_iHeaderSize Box.m_iContentSize].
  repeat split; try reflexivity.
  destruct (u32_decomp (iSize - 8)) as [k1 H1].
  destruct (u32_decomp (8 + Int.u32 (iSize - 8))) as [k2 H2].
  rewrite (u32_congr _ (iPos + iSize) (k1 + k2)) by (rewrite H2, H1; ring).
  exact Hend.
Qed.

(** A 36-byte box followed by 4 more bytes, loaded with [iEnd = 40]. *)
Lemma load_box_within_bounds_witness :
  let fs := IO.mkIn (SA3DBox.save (SA3DBox.create 4) [] ++ [9; 9; 9; 9]) 0 in
  Box.m_iPosition (SA3DBox.base (SA3DBox.create 4)) = 0
  /\ Int.u32 (0 + SA3DBox.size (SA3DBox.create 4)) <= 40.
Proof.
  intros fs.
  destruct (load_box_within_bounds fs 0 40 (SA3DBox.create 4))
    as (_ & Hp & _ & He).
  - lia.
  - vm_compute. reflexivity.
  - split; [exact Hp | exact He].
Defined.

Lemma load_accepts fs iPos iEnd iSize name fs1 :
  0 <= iPos ->
  SA3DBox.read_header fs iPos = (iSize, name, fs1) ->
  hd 0 name = 83 ->
  Int.u32 (iPos + iSize) <= iEnd ->
  exists b,
    SA3DBox.load fs iPos iEnd = inr b
    /\ SA3DBox.base b
       = Box.mk constants.TAG_SA3D iPos 8 (Int.u32 (iSize - 8)).
Proof.
  intros Hpos Hhdr Hname Hend. unfold SA3DBox.load.
  destruct (iPos <? 0) eqn:E; [apply Z.ltb_lt in E; lia|].
  rewrite Hhdr.
  unfold constants.sizeof_deref_TAG_SA3D. cbn [memcmp].
  rewrite Hname. change (hd 0 constants.TAG_SA3D) with 83.
  change (83 =? 83) with true. cbv iota. change (0 =? 0) with true.
  cbn [negb].
  destruct (Int.u32 (iPos + iSize) >? iEnd) eqn:E2;
    [apply Z.gtb_lt in E2; lia|].
  cbv zeta.
  repeat match goal with
         | |- context [IO.readUint8 ?f] => destruct (IO.readUint8 f) as [? ?]
         | |- context [IO.readUint32 ?f] => destruct (IO.readUint32 f) as [? ?]
         end.
  eexists. split; [reflexivity|].
  match goal with
  | |- context [SA3DBox.load_map ?k ?f ?bx] =>
      destruct (load_map_keeps k f bx) as [-> _]
  end.
  reflexivity.
Qed.

Lemma size_of_base b nm p c :
  SA3DBox.base b = Box.mk nm p 8 (Int.u32 (c - 8)) ->
  SA3DBox.size b = Int.u32 c.
Proof.
  intros H. unfold SA3DBox.size, Box.size. rewrite H.
  cbn [Box.m_iHeaderSize Box.m_iContentSize].
  destruct (u32_decomp (c - 8)) as [k Hk].
  apply u32_congr with (k := k). rewrite Hk. ring.
Qed.

Lemma image_same_fields iPos iSize b : same_fields b (image iPos iSize b).
Proof. unfold same_fields, image. cbn. repeat split; reflexivity. Qed.

(** X2.  The bounds test adds position and size in 32 bits: when the
    stream holds, from [iPos], a standard header whose tag starts with
    'S' followed by all the content bytes of a box [b0], and the declared
    end lies at or beyond [2^32], the box is accepted as soon as the
    wrapped sum does not exceed [iEnd], although the box as declared
    ends after [iEnd]. *)
Theorem load_bounds_check_wraps fs iPos iEnd iSize name b0 rest :
  0 <= iPos < 2 ^ 32 ->
  0 <= iSize < 2 ^ 32 -> iSize <> 1 ->
  length name = 4%nat -> hd 0 name = 83 ->
  wire_ok b0 ->
  remaining (IO.seekg fs iPos)
  = IO.be_split 4 iSize ++ name ++ content_bytes b0 ++ rest ->
  2 ^ 32 <= iPos + iSize ->
  iPos + iSize - 2 ^ 32 <= iEnd < 2 ^ 32 ->
  exists b,
    SA3DBox.load fs iPos iEnd = inr b
    /\ same_fields b0 b
    /\ Box.m_iPosition (SA3DBox.base b) = iPos
    /\ SA3DBox.size b = iSize
    /\ iEnd < Box.m_iPosition (SA3DBox.base b) + SA3DBox.size b.
Proof.
  intros Hpos Hsz Hne Hlen Hname Hok Hrem Hwrap Hend.
  destruct (read_header_standard fs iPos iSize name _
              ltac:(lia) Hsz Hne Hlen Hrem) as (fs1 & Hh & Hrem1 & Hp1).
  assert (Hsum : Int.u32 (iPos + iSize) <= iEnd).
  { rewrite (u32_congr _ (iPos + iSize - 2 ^ 32) 1) by ring.
    rewrite u32_small by lia. lia. }
  exists (image iPos iSize b0). split; [|split].
  - apply (load_content fs iPos iEnd iSize name fs1 b0 rest
             ltac:(lia) Hh Hp1 Hrem1 Hname Hsum Hok).
  - apply image_same_fields.
  - rewrite (size_of_base (image iPos iSize b0) constants.TAG_SA3D iPos iSize
               eq_refl).
    rewrite (u32_small iSize) by lia.
    unfold image. cbn [SA3DBox.base Box.m_iPosition]. repeat split; lia.
Qed.

(** A box at offset 8 declaring [2^32 - 4] bytes, with the twelve
    content bytes of the empty box, in a 28-byte stream. *)
Lemma load_bounds_check_wraps_witness :
  let fs := IO.mkIn (repeat 0 8 ++ [255; 255; 255; 252]
                     ++ constants.TAG_SA3D ++ repeat 0 12) 0 in
  exists b,
    SA3DBox.load fs 8 28 = inr b
    /\ SA3DBox.size b = 4294967292
    /\ 28 < Box.m_iPosition (SA3DBox.base b) + SA3DBox.size b.
Proof.
  intros fs.
  destruct (load_bounds_check_wraps fs 8 28 4294967292 constants.TAG_SA3D
              SA3DBox.ctor []) as (b & Hl & _ & _ & Hs & He).
  - lia.
  - lia.
  - lia.
  - reflexivity.
  - reflexivity.
  - apply wire_okb_sound. vm_compute. reflexivity.
  - vm_compute. reflexivity.
  - lia.
  - lia.
  - exists b. auto.
Defined.

Lemma read_header_extended64 fs iPos v name rest :
  0 <= iPos ->
  0 <= v < 2 ^ 64 ->
  length name = 4%nat ->
  remaining (IO.seekg fs iPos)
  = IO.be_split 4 1 ++ name ++ IO.be_split 8 v ++ rest ->
  exists fs',
    SA3DBox.read_header fs iPos = (Int.u32 v, name, fs')
    /\ remaining fs' = rest /\ 0 <= IO.gpos fs'.
Proof.
  intros Hpos Hv Hlen Hrem. unfold SA3DBox.read_header.
  destruct (readUint_remaining 4 (IO.seekg fs iPos) 1 _ Hpos ltac:(cbn; lia) Hrem)
    as (fs1 & Hr1 & Hrem1 & Hp1).
  unfold IO.readUint32. rewrite Hr1.
  destruct (read_remaining fs1 name _ Hp1 Hrem1) as (fs2 & Hr2 & Hrem2 & Hp2).
  rewrite Hlen in Hr2. rewrite Hr2.
  change (1 =? 1) with true. cbv iota.
  destruct (readUint_remaining 8 fs2 v _ Hp2 Hv Hrem2)
    as (fs3 & Hr3 & Hrem3 & Hp3).
  unfold IO.readUint64. rewrite Hr3, u32_i32.
  eauto.
Qed.


(** X3.  In the extended header form only the low 32 bits of the 64-bit
    size are used: the box is bounds-checked and given its content size
    from [v mod 2^32]. *)
Theorem load_extended_size_low_bits fs iPos iEnd v name b0 rest :
  0 <= iPos ->
  0 <= v < 2 ^ 64 ->
  length name = 4%nat -> hd 0 name = 83 ->
  wire_ok b0 ->
  remaining (IO.seekg fs iPos)
  = IO.be_split 4 1 ++ name ++ IO.be_split 8 v ++ content_bytes b0 ++ rest ->
  Int.u32 (iPos + v mod 2 ^ 32) <= iEnd ->
  exists b,
    SA3DBox.load fs iPos iEnd = inr b
    /\ same_fields b0 b
    /\ Box.m_iContentSize (SA3DBox.base b) = Int.u32 (v mod 2 ^ 32 - 8).
Proof.
  intros Hpos Hv Hlen Hname Hok Hrem Hend.
  destruct (read_header_extended64 fs iPos v name _ Hpos Hv Hlen Hrem)
    as (fs1 & Hh & Hrem1 & Hp1).
  exists (image iPos (Int.u32 v) b0). split; [|split].
  - apply (load_content fs iPos iEnd _ _ fs1 b0 rest Hpos Hh Hp1 Hrem1
             Hname Hend Hok).
  - apply image_same_fields.
  - reflexivity.
Qed.

(** A 64-bit size of [2^32 + 28] is taken as 28. *)
Lemma load_extended_size_low_bits_witness :
  let b0 := SA3DBox.create 0 in
  let fs := IO.mkIn ([0; 0; 0; 1] ++ constants.TAG_SA3D
                     ++ [0; 0; 0; 1; 0; 0; 0; 28] ++ content_bytes b0) 0 in
  exists b,
    SA3DBox.load fs 0 28 = inr b
    /\ Box.m_iContentSize (SA3DBox.base b) = 20.
Proof.
  intros b0 fs.
  destruct (load_extended_size_low_bits fs 0 28 4294967324
              constants.TAG_SA3D b0 []) as (b & Hl & _ & Hc).
  - lia.
  - cbn; lia.
  - reflexivity.
  - reflexivity.
  - apply wire_okb_sound. vm_compute. reflexivity.
  - vm_compute. reflexivity.
  - vm_compute. discriminate.
  - exists b. split; [exact Hl|]. rewrite Hc. vm_compute. reflexivity.
Defined.

Lemma remaining_at_offset pre x g :
  remaining (IO.seekg (IO.mkIn (pre ++ x) g) (Z.of_nat (length pre))) = x.
Proof.
  unfold remaining. cbn [IO.seekg IO.gpos IO.data].
  rewrite Nat2Z.id, skipn_app, skipn_all, Nat.sub_diag. reflexivity.
Qed.

(** X4.  Round trip anywhere in a stream: a box in the standard header
    form whose fields fit their wire widths, saved after any bytes and
    followed by any bytes, is loaded back from its offset with the same
    seven fields, that offset as position and the same content size. *)
Theorem save_load_roundtrip_at_offset (b : SA3DBox.t) (pre post : list Z)
                                      (g iEnd : Z) :
  wire_ok b ->
  Box.m_iHeaderSize (SA3DBox.base b) = 8 ->
  Box.m_name (SA3DBox.base b) = constants.TAG_SA3D ->
  0 <= Box.m_iContentSize (SA3DBox.base b) ->
  Box.m_iContentSize (SA3DBox.base b) + 8 < 2 ^ 32 ->
  Int.u32 (Z.of_nat (length pre) + SA3DBox.size b) <= iEnd ->
  exists b',
    SA3DBox.load (IO.mkIn (pre ++ SA3DBox.save b [] ++ post) g)
                 (Z.of_nat (length pre)) iEnd = inr b'
    /\ same_fields b b'
    /\ SA3DBox.base b'
       = Box.mk constants.TAG_SA3D (Z.of_nat (length pre)) 8
                (Box.m_iContentSize (SA3DBox.base b)).
Proof.
  intros Hok Hh Hname Hc0 Hc1 Hend.
  assert (Hsize : SA3DBox.size b = 8 + Box.m_iContentSize (SA3DBox.base b)).
  { unfold SA3DBox.size, Box.size. rewrite Hh. apply u32_small. lia. }
  assert (Hrem : remaining (IO.seekg (IO.mkIn (pre ++ SA3DBox.save b [] ++ post) g)
                              (Z.of_nat (length pre)))
                 = IO.be_split 4 (SA3DBox.size b) ++ constants.TAG_SA3D
                   ++ content_bytes b ++ post).
  { rewrite remaining_at_offset, save_layout. unfold header_bytes. cbv zeta.
    rewrite Hh, Hname. change (8 =? 16) with false. change (8 =? 8) with true.
    cbv iota. change (firstn 4 constants.TAG_SA3D) with constants.TAG_SA3D.
    cbn [app]. now repeat rewrite <- app_assoc. }
  destruct (read_header_standard _ _ (SA3DBox.size b) constants.TAG_SA3D _
              (Nat2Z.is_nonneg _) ltac:(lia) ltac:(lia) eq_refl Hrem)
    as (fs1 & Hhd & Hrem1 & Hp1).
  exists (image (Z.of_nat (length pre)) (SA3DBox.size b) b).
  split; [|split].
  - apply (load_content _ _ _ _ _ fs1 b post (Nat2Z.is_nonneg _) Hhd Hp1
             Hrem1 eq_refl Hend Hok).
  - apply image_same_fields.
  - unfold image. cbn [SA3DBox.base]. f_equal.
    rewrite Hsize, u32_small by lia. lia.
Qed.

(** The four-channel box saved after three bytes and before two. *)
Lemma save_load_roundtrip_at_offset_witness :
  let b := SA3DBox.create 4 in
  exists b',
    SA3DBox.load (IO.mkIn ([7; 7; 7] ++ SA3DBox.save b [] ++ [5; 5]) 0)
                 3 41 = inr b'
    /\ same_fields b b'
    /\ Box.m_iPosition (SA3DBox.base b') = 3.
Proof.
  intros b.
  destruct (save_load_roundtrip_at_offset b [7; 7; 7] [5; 5] 0 41)
    as (b' & Hl & Hf & Hb).
  - apply wire_okb_sound. vm_compute. reflexivity.
  - reflexivity.
  - reflexivity.
  - vm_compute. discriminate.
  - vm_compute. reflexivity.
  - vm_compute. discriminate.
  - exists b'. split; [exact Hl|]. split; [exact Hf|]. now rewrite Hb.
Defined.

(** ** SA3DBox: saving what was loaded *)

Lemma Forall_skipn_byte a (s : list Z) :
  Forall is_byte s -> Forall is_byte (skipn a s).
Proof.
  intros H. rewrite <- (firstn_skipn a s) in H.
  now apply Forall_app in H.
Qed.

Lemma Forall_firstn_byte n (s : list Z) :
  Forall is_byte s -> Forall is_byte (firstn n s).
Proof.
  intros H. rewrite <- (firstn_skipn n s) in H.
  now apply Forall_app in H.
Qed.

(** The [n] bytes at offset [a] are the digits of the value they
    encode. *)
Lemma field_at a n (s : list Z) :
  (a + n <= length s)%nat -> Forall is_byte s ->
  firstn n (skipn a s)
  = IO.be_split n (IO.be_combine (firstn n (skipn a s)))
  /\ 0 <= IO.be_combine (firstn n (skipn a s)) < 2 ^ (8 * Z.of_nat n).
Proof.
  intros Hlen Hs.
  assert (Hb : Forall is_byte (firstn n (skipn a s)))
    by now apply Forall_firstn_byte, Forall_skipn_byte.
  assert (Hl : length (firstn n (skipn a s)) = n).
  { rewrite length_firstn, length_skipn. lia. }
  pose proof (be_split_combine _ Hb) as E.
  pose proof (be_combine_range _ Hb) as R.
  rewrite Hl in E, R. split; [symmetry; exact E | exact R].
Qed.

Lemma skipn_step a n (s : list Z) :
  skipn a s = firstn n (skipn a s) ++ skipn (n + a) s.
Proof. now rewrite <- skipn_skipn, firstn_skipn. Qed.

Lemma decode_map_bytes k : forall s,
  (4 * k <= length s)%nat -> Forall is_byte s ->
  firstn (4 * k) s = map_bytes (decode_map k s)
  /\ Forall Int.is_u32 (decode_map k s)
  /\ length (decode_map k s) = k.
Proof.
  induction k as [|k IH]; intros s Hlen Hs.
  - cbn. auto.
  - destruct (field_at 0 4 s ltac:(cbn; lia) Hs) as [Hf Hr].
    cbn [skipn] in Hf, Hr.
    destruct (IH (skipn 4 s)) as (H1 & H2 & H3).
    { rewrite length_skipn. lia. }
    { now apply Forall_skipn_byte. }
    cbn [decode_map]. split; [|split].
    + unfold map_bytes. cbn [flat_map]. fold (map_bytes (decode_map k (skipn 4 s))).
      rewrite <- H1, <- Hf.
      replace (4 * S k)%nat with (4 + 4 * k)%nat by lia.
      rewrite <- (firstn_skipn 4 s) at 1.
      rewrite firstn_app, length_firstn.
      replace (Nat.min 4 (length s)) with 4%nat by lia.
      replace (4 + 4 * k - 4)%nat with (4 * k)%nat by lia.
      rewrite firstn_firstn.
      replace (Nat.min (4 + 4 * k) 4) with 4%nat by lia. reflexivity.
    + constructor; [exact Hr | exact H2].
    + cbn [length]. now rewrite H3.
Qed.

(** X5.  Saving what was loaded gives the bytes back: when the stream
    holds, from [iPos], a box in the standard header form tagged "SA3D"
    with all the bytes its channel count announces, [load] succeeds and
    [save] of the loaded box writes exactly the [20 + 4 * count] bytes
    that were read. *)
Theorem load_save_reproduces_bytes (fs : IO.istream) (iPos iEnd : Z) :
  let s := remaining (IO.seekg fs iPos) in
  let count := IO.be_combine (firstn 4 (skipn 16 s)) in
  0 <= iPos ->
  Forall is_byte s ->
  (20 <= length s)%nat ->
  IO.be_combine (firstn 4 s) <> 1 ->
  firstn 4 (skipn 4 s) = constants.TAG_SA3D ->
  20 + 4 * count <= Z.of_nat (length s) ->
  Int.u32 (iPos + IO.be_combine (firstn 4 s)) <= iEnd ->
  exists b,
    SA3DBox.load fs iPos iEnd = inr b
    /\ SA3DBox.m_iNumChannels b = count
    /\ SA3DBox.save b [] = firstn (Z.to_nat (20 + 4 * count)) s.
Proof.
  intros s count Hpos Hs H20 Hstd Htag Hlen Hend.
  destruct (field_at 0 4 s ltac:(lia) Hs) as [Esz Rsz]. cbn [skipn] in Esz, Rsz.
  destruct (field_at 8 1 s ltac:(lia) Hs) as [Ev Rv].
  destruct (field_at 9 1 s ltac:(lia) Hs) as [Et Rt].
  destruct (field_at 10 4 s ltac:(lia) Hs) as [Eo Ro].
  destruct (field_at 14 1 s ltac:(lia) Hs) as [Eg Rg].
  destruct (field_at 15 1 s ltac:(lia) Hs) as [En Rn].
  destruct (field_at 16 4 s ltac:(lia) Hs) as [Ec Rc]. fold count in Ec, Rc.
  set (sz := IO.be_combine (firstn 4 s)) in *.
  set (v := IO.be_combine (firstn 1 (skipn 8 s))) in *.
  set (t := IO.be_combine (firstn 1 (skipn 9 s))) in *.
  set (o := IO.be_combine (firstn 4 (skipn 10 s))) in *.
  set (g := IO.be_combine (firstn 1 (skipn 14 s))) in *.
  set (n := IO.be_combine (firstn 1 (skipn 15 s))) in *.
  change (2 ^ (8 * Z.of_nat 4)) with (2 ^ 32) in *.
  change (2 ^ (8 * Z.of_nat 1)) with (2 ^ 8) in *.
  destruct (decode_map_bytes (Z.to_nat count) (skipn 20 s)) as (Em & Rm & Lm).
  { rewrite length_skipn. lia. }
  { now apply Forall_skipn_byte. }
  set (mp := decode_map (Z.to_nat count) (skipn 20 s)) in *.
  set (rest := skipn (4 * Z.to_nat count) (skipn 20 s)).
  set (b0 := SA3DBox.mk (Box.mk constants.TAG_SA3D 0 8 0) v t o g n count mp
                        [] [] []).
  assert (Hdec : s = IO.be_split 4 sz ++ constants.TAG_SA3D
                     ++ content_bytes b0 ++ rest).
  { unfold content_bytes, b0.
    cbn [SA3DBox.m_iVersion SA3DBox.m_iAmbisonicType SA3DBox.m_iAmbisonicOrder
         SA3DBox.m_iAmbisonicChannelOrdering SA3DBox.m_iAmbisonicNormalization
         SA3DBox.m_iNumChannels SA3DBox.m_ChannelMap].
    rewrite <- Esz, <- Htag, <- Ev, <- Et, <- Eo, <- Eg, <- En, <- Ec, <- Em.
    repeat rewrite <- app_assoc.
    unfold rest. rewrite firstn_skipn. symmetry.
    change (skipn 20 s) with (skipn (4 + 16) s).
    rewrite <- (skipn_step 16 4 s).
    change (skipn 16 s) with (skipn (1 + 15) s).
    rewrite <- (skipn_step 15 1 s).
    change (skipn 15 s) with (skipn (1 + 14) s).
    rewrite <- (skipn_step 14 1 s).
    change (skipn 14 s) with (skipn (4 + 10) s).
    rewrite <- (skipn_step 10 4 s).
    change (skipn 10 s) with (skipn (1 + 9) s).
    rewrite <- (skipn_step 9 1 s).
    change (skipn 9 s) with (skipn (1 + 8) s).
    rewrite <- (skipn_step 8 1 s).
    change (skipn 8 s) with (skipn (4 + 4) s).
    rewrite <- (skipn_step 4 4 s).
    apply firstn_skipn. }
  assert (Hok : wire_ok b0).
  { constructor; unfold b0;
      cbn [SA3DBox.m_iVersion SA3DBox.m_iAmbisonicType
           SA3DBox.m_iAmbisonicOrder SA3DBox.m_iAmbisonicChannelOrdering
           SA3DBox.m_iAmbisonicNormalization SA3DBox.m_iNumChannels
           SA3DBox.m_ChannelMap]; try lia; assumption. }
  assert (Hrem : remaining (IO.seekg fs iPos)
                 = IO.be_split 4 sz ++ constants.TAG_SA3D
                   ++ content_bytes b0 ++ rest) by exact Hdec.
  destruct (read_header_standard fs iPos sz constants.TAG_SA3D _
              Hpos Rsz Hstd eq_refl Hrem) as (fs1 & Hhd & Hrem1 & Hp1).
  exists (image iPos sz b0). split; [|split].
  - apply (load_content fs iPos iEnd _ _ fs1 b0 rest Hpos Hhd Hp1 Hrem1
             eq_refl Hend Hok).
  - reflexivity.
  - rewrite save_layout. cbn [app].
    assert (Hsave : header_bytes (image iPos sz b0) ++ content_bytes (image iPos sz b0)
                    = IO.be_split 4 sz ++ constants.TAG_SA3D ++ content_bytes b0).
    { unfold header_bytes, image, SA3DBox.size, Box.size. cbv zeta.
      cbn [SA3DBox.base Box.m_iHeaderSize Box.m_iContentSize Box.m_name].
      change (8 =? 16) with false. change (8 =? 8) with true. cbv iota.
      change (firstn 4 constants.TAG_SA3D) with constants.TAG_SA3D.
      destruct (u32_decomp (sz - 8)) as [k1 H1].
      rewrite (u32_congr (8 + Int.u32 (sz - 8)) sz k1) by (rewrite H1; ring).
      rewrite (u32_small sz) by exact Rsz.
      rewrite <- app_assoc. reflexivity. }
    rewrite Hsave.
    fold s in Hdec. rewrite Hdec at 1.
    repeat rewrite app_assoc.
    match goal with
    | |- ?x = firstn ?k (?y ++ rest) =>
        replace k with (length y); [now rewrite firstn_app, firstn_all, Nat.sub_diag, firstn_O, app_nil_r|]
    end.
    repeat rewrite <- app_assoc.
    unfold content_bytes, b0.
    cbn [SA3DBox.m_iVersion SA3DBox.m_iAmbisonicType SA3DBox.m_iAmbisonicOrder
         SA3DBox.m_iAmbisonicChannelOrdering SA3DBox.m_iAmbisonicNormalization
         SA3DBox.m_iNumChannels SA3DBox.m_ChannelMap].
    repeat rewrite length_app. repeat rewrite be_split_length.
    rewrite map_bytes_length, Lm.
    change (length constants.TAG_SA3D) with 4%nat. lia.
Qed.

(** The serialization of the two-channel box, read back from offset 2
    and saved again. *)
Lemma load_save_reproduces_bytes_witness :
  let bytes := SA3DBox.save (SA3DBox.create 2) [] in
  let fs := IO.mkIn ([1; 2] ++ bytes ++ [3]) 0 in
  exists b,
    SA3DBox.load fs 2 30 = inr b
    /\ SA3DBox.m_iNumChannels b = 2
    /\ SA3DBox.save b [] = bytes.
Proof.
  intros bytes fs.
  destruct (load_save_reproduces_bytes fs 2 30) as (b & Hl & Hn & Hs).
  - lia.
  - vm_compute. repeat constructor; discriminate.
  - vm_compute. lia.
  - vm_compute. discriminate.
  - reflexivity.
  - vm_compute. discriminate.
  - vm_compute. discriminate.
  - exists b. split; [exact Hl|]. split; [exact Hn|].
    rewrite Hs. vm_compute. reflexivity.
Defined.

(** ** SA3DBox: how much [save] writes *)

(** X6.  For a box in the 8- or 16-byte header form whose content size
    is [12 + 4 * channel count], with as many channel-map entries as the
    channel count says, [save] appends exactly [size ()] bytes to the
    output and leaves what was written before untouched. *)
Theorem save_writes_size_bytes (b : SA3DBox.t) (out : list Z) :
  Box.m_iHeaderSize (SA3DBox.base b) = 8
  \/ Box.m_iHeaderSize (SA3DBox.base b) = 16 ->
  length (Box.m_name (SA3DBox.base b)) = 4%nat ->
  SA3DBox.m_iNumChannels b = Z.of_nat (length (SA3DBox.m_ChannelMap b)) ->
  Box.m_iContentSize (SA3DBox.base b) = 12 + 4 * SA3DBox.m_iNumChannels b ->
  Box.m_iHeaderSize (SA3DBox.base b) + Box.m_iContentSize (SA3DBox.base b)
  < 2 ^ 32 ->
  firstn (length out) (SA3DBox.save b out) = out
  /\ Z.of_nat (length (SA3DBox.save b out))
     = Z.of_nat (length out) + SA3DBox.size b.
Proof.
  intros Hh Hname Hn Hc Hfit. split.
  - rewrite save_layout, firstn_app, Nat.sub_diag, firstn_all.
    cbn [firstn]. apply app_nil_r.
  - rewrite save_length. unfold SA3DBox.size, Box.size.
    rewrite u32_small by lia.
    assert (Hhl : Z.of_nat (length (header_bytes b))
                  = Box.m_iHeaderSize (SA3DBox.base b)).
    { unfold header_bytes. cbv zeta.
      destruct Hh as [-> | ->].
      - change (8 =? 16) with false. change (8 =? 8) with true. cbv iota.
        rewrite length_app, be_split_length, length_firstn, Hname.
        reflexivity.
      - change (16 =? 16) with true. cbv iota.
        repeat rewrite length_app. repeat rewrite be_split_length.
        rewrite length_firstn, Hname. reflexivity. }
    lia.
Qed.

(** The four-channel box appended to three bytes already written. *)
Lemma save_writes_size_bytes_witness :
  let b := SA3DBox.create 4 in
  firstn 3 (SA3DBox.save b [1; 2; 3]) = [1; 2; 3]
  /\ Z.of_nat (length (SA3DBox.save b [1; 2; 3])) = 3 + SA3DBox.size b.
Proof.
  intros b.
  apply (save_writes_size_bytes b [1; 2; 3]).
  - left. reflexivity.
  - reflexivity.
  - reflexivity.
  - reflexivity.
  - vm_compute. reflexivity.
Defined.

(** ** SA3DBox: the box [create] builds *)

Lemma iota_nth k : forall i j,
  (j < k)%nat -> nth_error (iota k i) j = Some (i + Z.of_nat j).
Proof.
  induction k as [|k IH]; intros i j Hj; [lia|].
  destruct j as [|j]; cbn [iota nth_error].
  - f_equal. lia.
  - rewrite IH by lia. f_equal. lia.
Qed.

(** X7.  [create n] builds a box tagged "SA3D" in the 8-byte header
    form, at position 0, with version, ambisonic type, channel ordering
    and normalization 0, whose channel map is the identity: entry [i] is
    [i] for every [i] below [n]. *)
Theorem create_identity_map (n i : Z) :
  0 <= n < 2 ^ 31 ->
  0 <= i < n ->
  nth_error (SA3DBox.m_ChannelMap (SA3DBox.create n)) (Z.to_nat i) = Some i
  /\ SA3DBox.base (SA3DBox.create n)
     = Box.mk constants.TAG_SA3D 0 8 (Int.u32 (12 + 4 * n))
  /\ SA3DBox.m_iVersion (SA3DBox.create n) = 0
  /\ SA3DBox.m_iAmbisonicType (SA3DBox.create n) = 0
  /\ SA3DBox.m_iAmbisonicChannelOrdering (SA3DBox.create n) = 0
  /\ SA3DBox.m_iAmbisonicNormalization (SA3DBox.create n) = 0.
Proof.
  intros Hn Hi. rewrite create_closed by lia. unfold created.
  cbn [SA3DBox.m_ChannelMap SA3DBox.base SA3DBox.m_iVersion
       SA3DBox.m_iAmbisonicType SA3DBox.m_iAmbisonicChannelOrdering
       SA3DBox.m_iAmbisonicNormalization].
  repeat split; try reflexivity.
  rewrite iota_nth by lia. f_equal. lia.
Qed.

(** Entry 7 of the nine-channel map. *)
Lemma create_identity_map_witness :
  nth_error (SA3DBox.m_ChannelMap (SA3DBox.create 9)) 7 = Some 7.
Proof.
  destruct (create_identity_map 9 7) as [H _]; [lia | lia | exact H].
Defined.

(** ** Mpeg4Container: which lists load *)

Lemma memcmp_eq_iff n : forall a b : list Z,
  length a = n -> length b = n -> (memcmp a b n = 0 <-> a = b).
Proof.
  induction n as [|n IH]; intros a b Ha Hb.
  - destruct a, b; try discriminate. cbn. tauto.
  - destruct a as [|x a], b as [|y b]; try discriminate.
    cbn [memcmp hd tl]. injection Ha as Ha. injection Hb as Hb.
    destruct (Z.eqb_spec x y) as [->|Hne].
    + rewrite (IH a b Ha Hb). split; [now intros -> | now intros [= ->]].
    + split; [lia | intros [= -> _]; contradiction].
Qed.

(** On a four-byte name each tag test is an equality with the tag. *)
Lemma tag_tests_exact (b : Box.t) :
  length (Box.m_name b) = 4%nat ->
  (is_moov b = true <-> Box.m_name b = bytes_of_string "moov")
  /\ (is_free b = true <-> Box.m_name b = bytes_of_string "free")
  /\ (is_mdat b = true <-> Box.m_name b = bytes_of_string "mdat")
  /\ (is_ftyp b = true <-> Box.m_name b = bytes_of_string "ftyp").
Proof.
  intros Hlen. unfold is_moov, is_free, is_mdat, is_ftyp.
  repeat split; intros H;
    try (apply Z.eqb_eq in H; apply (memcmp_eq_iff 4) in H;
         [exact H | exact Hlen | reflexivity]);
    apply Z.eqb_eq; apply (memcmp_eq_iff 4); auto.
Qed.

Lemma found_is_named (p : Box.t -> bool) (tag : string) (l : list Box.t)
                     (r : option nat) :
  four_byte_names l ->
  (forall b, length (Box.m_name b) = 4%nat -> p b = true ->
             Box.m_name b = bytes_of_string tag) ->
  refers_last p l r \/ refers_first p l r ->
  refers_named l r tag.
Proof.
  intros Hl Hp Hr i ->.
  assert (H : exists b, nth_error l i = Some b /\ p b = true).
  { destruct Hr as [(b & Hn & Hb & _)|(b & Hn & Hb & _)]; eauto. }
  destruct H as (b & Hn & Hb). exists b. split; [exact Hn|].
  apply Hp; [|exact Hb].
  unfold four_byte_names in Hl. rewrite Forall_forall in Hl.
  apply Hl. eapply nth_error_In; eassumption.
Qed.

(** X8.  [Mpeg4Container::load] matches whole tags.  On a list of
    children with four-byte names, the load succeeds exactly when some
    child is named "moov" and some child is named "mdat" (a name that
    differs from the tag in any of its four bytes does not count), and
    every reference the load has set designates a child whose name is
    exactly the tag of that reference. *)
Theorem load_matches_whole_tags (l : list Box.t) :
  four_byte_names l ->
  ((exists c, Mpeg4Container.load_list l = Some c)
   <-> In (bytes_of_string "moov") (map Box.m_name l)
       /\ In (bytes_of_string "mdat") (map Box.m_name l))
  /\ forall c, Mpeg4Container.load_list l = Some c ->
       refers_named l (Mpeg4Container.m_pMoovBox c) "moov"
       /\ refers_named l (Mpeg4Container.m_pFreeBox c) "free"
       /\ refers_named l (Mpeg4Container.m_pFirstMDatBox c) "mdat"
       /\ refers_named l (Mpeg4Container.m_pFTYPBox c) "ftyp".
Proof.
  intros Hl.
  assert (Hlen : forall b, In b l -> length (Box.m_name b) = 4%nat).
  { unfold four_byte_names in Hl. rewrite Forall_forall in Hl. exact Hl. }
  rewrite load_list_closed. unfold loaded.
  pose proof (find_last_refers is_moov l) as Rm.
  pose proof (find_first_refers is_mdat l) as Rd.
  split; [split|].
  - intros [c Hc].
    destruct (find_last is_moov l) as [im|]; [|discriminate].
    destruct (find_first is_mdat l) as [i|]; [|discriminate].
    destruct Rm as (bm & Hbm & Pm & _). destruct Rd as (bd & Hbd & Pd & _).
    apply nth_error_In in Hbm, Hbd.
    split; apply in_map_iff; [exists bm | exists bd]; (split; [|assumption]).
    + now apply (tag_tests_exact bm (Hlen bm Hbm)).
    + now apply (tag_tests_exact bd (Hlen bd Hbd)).
  - intros [Hm Hd].
    apply in_map_iff in Hm, Hd.
    destruct Hm as (bm & Nm & Hm). destruct Hd as (bd & Nd & Hd).
    assert (Pm : is_moov bm = true)
      by now apply (tag_tests_exact bm (Hlen bm Hm)).
    assert (Pd : is_mdat bd = true)
      by now apply (tag_tests_exact bd (Hlen bd Hd)).
    destruct (find_last_some _ _ _ Hm Pm) as [im Em].
    destruct (find_first_some _ _ _ Hd Pd) as [i Ed].
    rewrite Em, Ed in *. destruct Rd as (xd & Hxd & _).
    rewrite Hxd. eauto.
  - intros c.
    destruct (find_last is_moov l) as [im|] eqn:Em; [|discriminate].
    destruct (find_first is_mdat l) as [i|] eqn:Ed; [|discriminate].
    destruct (nth_error l i) as [pMDat|] eqn:En; [|discriminate].
    intros [= <-].
    cbn [Mpeg4Container.m_pMoovBox Mpeg4Container.m_pFreeBox
         Mpeg4Container.m_pFirstMDatBox Mpeg4Container.m_pFTYPBox].
    rewrite <- Em.
    split; [|split; [|split]].
    + apply (found_is_named is_moov); [exact Hl| |left; apply find_last_refers].
      intros b Hb. now apply (tag_tests_exact b Hb).
    + apply (found_is_named is_free); [exact Hl| |left; apply find_last_refers].
      intros b Hb. now apply (tag_tests_exact b Hb).
    + apply (found_is_named is_mdat); [exact Hl| |right; exact Rd].
      intros b Hb. now apply (tag_tests_exact b Hb).
    + apply (found_is_named is_ftyp); [exact Hl| |left; apply find_last_refers].
      intros b Hb. now apply (tag_tests_exact b Hb).
Qed.

(** A file whose only media box is tagged "mdaT" does not load. *)
Lemma load_matches_whole_tags_witness :
  let l := [Box.mk (bytes_of_string "moov") 0 8 0;
            Box.mk (bytes_of_string "mdaT") 8 8 0] in
  ~ exists c, Mpeg4Container.load_list l = Some c.
Proof.
  intros l H.
  destruct (load_matches_whole_tags l) as [[Hd _] _].
  - repeat constructor.
  - destruct (Hd H) as [_ Hin]. cbn in Hin.
    destruct Hin as [E|[E|[]]]; discriminate.
Defined.

(** X9.  A parsed list loads exactly when it holds a child tagged [moov]
    and a child tagged [mdat]; nothing else is required of it. *)
Theorem load_list_succeeds_iff (l : list Box.t) :
  (exists c, Mpeg4Container.load_list l = Some c)
  <-> (exists b, In b l /\ is_moov b = true)
      /\ (exists b, In b l /\ is_mdat b = true).
Proof.
  rewrite load_list_closed. unfold loaded.
  pose proof (find_last_refers is_moov l) as Rm.
  pose proof (find_first_refers is_mdat l) as Rd.
  split.
  - intros [c Hc].
    destruct (find_last is_moov l) as [im|]; [|discriminate].
    destruct (find_first is_mdat l) as [i|]; [|discriminate].
    destruct Rm as (bm & Hbm & Pm & _). destruct Rd as (bd & Hbd & Pd & _).
    split; [exists bm | exists bd]; split; auto;
      eapply nth_error_In; eassumption.
  - intros [(bm & Hm & Pm) (bd & Hd & Pd)].
    destruct (find_last_some _ _ _ Hm Pm) as [im Em].
    destruct (find_first_some _ _ _ Hd Pd) as [i Ed].
    rewrite Em, Ed in *. destruct Rd as (xd & Hxd & _).
    rewrite Hxd. eauto.
Qed.

Lemma total_size_u32 l : total_size l 0 = Int.u32 (sizes l).
Proof.
  destruct l as [|x r]; [reflexivity|].
  destruct (total_size_sizes (x :: r) 0) as [k Hk].
  assert (R : 0 <= total_size (x :: r) 0 < 2 ^ 32).
  { unfold total_size. cbn [fold_left].
    generalize (Int.u32 (0 + Box.size x)) (u32_range (0 + Box.size x)).
    clear Hk. induction r as [|y r IH]; intros a Ha; cbn [fold_left]; [exact Ha|].
    apply IH, u32_range. }
  rewrite <- (u32_small _ R). apply u32_congr with (k := k). lia.
Qed.

(** X10.  After a successful load the container's content size is the
    sum of the sizes of all its children, in 32-bit arithmetic. *)
Theorem load_content_size_is_sum (l : list Box.t) (c : Mpeg4Container.t) :
  Mpeg4Container.load_list l = Some c ->
  Mpeg4Container.m_iContentSize c = Int.u32 (sizes l).
Proof.
  rewrite load_list_closed. unfold loaded.
  destruct (find_last is_moov l); [|discriminate].
  destruct (find_first is_mdat l) as [i|]; [|discriminate].
  destruct (nth_error l i); [|discriminate].
  intros [= <-]. cbn [Mpeg4Container.m_iContentSize].
  apply total_size_u32.
Qed.

(** Boxes of 16, 8 and 12 bytes: content size 36. *)
Lemma load_content_size_is_sum_witness :
  let l := [Box.mk (bytes_of_string "ftyp") 0 8 8;
            Box.mk (bytes_of_string "moov") 16 8 0;
            Box.mk (bytes_of_string "mdat") 24 8 4] in
  exists c, Mpeg4Container.load_list l = Some c
            /\ Mpeg4Container.m_iContentSize c = 36.
Proof.
  intros l.
  destruct (Mpeg4Container.load_list l) as [c|] eqn:E;
    [|vm_compute in E; discriminate].
  exists c. split; [reflexivity|].
  rewrite (load_content_size_is_sum l c E). vm_compute. reflexivity.
Defined.

(** ** Mpeg4Container: more on the delta of [save] *)

Lemma i32_u32_signed x : - 2 ^ 31 <= x < 2 ^ 31 -> Int.i32 (Int.u32 x) = x.
Proof.
  intros Hx. unfold Int.i32, Int.u32. cbv zeta. rewrite Z.mod_mod by lia.
  destruct (Z_lt_le_dec x 0) as [Hneg|Hnn].
  - replace (x mod 2 ^ 32) with (x + 2 ^ 32).
    + destruct (x + 2 ^ 32 <? 2 ^ 31) eqn:E; [apply Z.ltb_lt in E|]; lia.
    + symmetry. rewrite <- (Z.mod_add x 1 (2 ^ 32)) by lia.
      apply Z.mod_small. lia.
  - rewrite Z.mod_small by lia.
    destruct (x <? 2 ^ 31) eqn:E; [reflexivity | apply Z.ltb_ge in E; lia].
Qed.

Lemma sizes_same_layout l l' :
  Forall2 same_layout l l' -> sizes l' = sizes l.
Proof.
  induction 1 as [|x y r r' (_ & _ & Hs) _ IH]; [reflexivity|].
  unfold sizes in *. cbn [fold_right]. rewrite IH, Hs. reflexivity.
Qed.

Lemma none_with_same_layout l l' :
  Forall2 same_layout l l' -> none_with is_mdat l -> none_with is_mdat l'.
Proof.
  induction 1 as [|x y r r' (Hn & _ & _) _ IH]; intros H; [exact H|].
  apply none_with_cons in H as [Hx Hr]. apply none_with_cons.
  split; [|auto]. unfold is_mdat in *. now rewrite <- Hn.
Qed.

(** The media-data box found by [load] lies in every prefix of the
    child list that holds a media-data box. *)
Lemma first_mdat_in_prefix l1 : forall m l2 p rest,
  l1 ++ m :: l2 = p ++ rest ->
  none_with is_mdat l1 -> is_mdat m = true ->
  (exists b, In b p /\ is_mdat b = true) ->
  exists q, p = l1 ++ m :: q.
Proof.
  induction l1 as [|y l1 IH]; intros m l2 p rest Heq Hnone Hm (b & Hb & Pb).
  - destruct p as [|z p]; [destruct Hb|].
    cbn [app] in Heq. injection Heq as -> _. now exists p.
  - apply none_with_cons in Hnone as [Hy Hnone].
    destruct p as [|z p]; [destruct Hb|].
    cbn [app] in Heq. injection Heq as <- Heq.
    destruct Hb as [<-|Hb]; [congruence|].
    destruct (IH m l2 p rest Heq Hnone Hm) as [q ->]; [eauto|].
    now exists q.
Qed.

(** X11.  If the children up to and including the first media-data box
    have kept their tags, header sizes and sizes since the load, the
    delta of [save] is 0 and every child's [save] receives 0, whatever
    was added, removed or resized after that box. *)
Theorem save_delta_zero_when_prefix_kept
  (Box_load : IO.istream -> Z -> Z -> option Box.t)
  (resize : Mpeg4Container.t -> Mpeg4Container.t)
  (Box_save : Box.t -> IO.istream -> IO.ostream -> Z
              -> IO.istream * IO.ostream)
  (fuel : nat) (fs : IO.istream) (c self : Mpeg4Container.t)
  (p rest p' rest' : list Box.t) (fsIn : IO.istream) (fsOut : IO.ostream) :
  (forall fs iPos iEnd b,
     Box_load fs iPos iEnd = Some b -> Box.m_iPosition b = iPos) ->
  Mpeg4Container.load Box_load fuel fs = Done (Some c) ->
  Mpeg4Container.m_listContents c = p ++ rest ->
  (exists b, In b p /\ is_mdat b = true) ->
  Mpeg4Container.m_listContents (resize self) = p' ++ rest' ->
  Forall2 same_layout p p' ->
  Mpeg4Container.m_iFirstMDatPos (resize self)
  = Mpeg4Container.m_iFirstMDatPos c ->
  Mpeg4Container.save_delta resize self = 0
  /\ Mpeg4Container.save resize Box_save self fsIn fsOut
     = (resize self,
        fold_left (fun st pBox => Box_save pBox (fst st) (snd st) 0)
                  (p' ++ rest') (fsIn, fsOut)).
Proof.
  intros Hpos Hload Hc Hp Hself Hsame Hfirst.
  assert (Hd : Mpeg4Container.save_delta resize self = 0);
    [|split; [exact Hd | rewrite save_unfold, Hd, Hself; reflexivity]].
  destruct (load_first_mdat_position _ _ _ _ Hpos Hload)
    as (l1 & m & l2 & k & Hl & Hnone & Hm & Hfp).
  rewrite Hc in Hl. symmetry in Hl.
  destruct (first_mdat_in_prefix l1 m l2 p rest Hl Hnone Hm Hp) as [q ->].
  apply Forall2_app_inv_l in Hsame as (l1' & t' & H1 & H2 & ->).
  inversion H2 as [|m0 m' q0 q' Hmm Hq]; subst.
  unfold Mpeg4Container.save_delta. cbv zeta.
  rewrite Hself, Hfirst, Hfp, <- app_assoc. cbn [app].
  rewrite new_pos_first_mdat.
  - rewrite (sizes_same_layout _ _ H1).
    destruct Hmm as (_ & Hh & _). rewrite <- Hh.
    destruct (u32_decomp (0 + sizes l1 + Box.m_iHeaderSize m)) as [k' Hk'].
    rewrite (u32_congr _ 0 (k' - k)) by (rewrite Hk'; lia).
    reflexivity.
  - eapply none_with_same_layout; eassumption.
  - destruct Hmm as (Hn & _ & _). unfold is_mdat in *. now rewrite <- Hn.
Qed.

(** The three-box file saved with a box appended after [mdat]. *)
Lemma save_delta_zero_when_prefix_kept_witness :
  let file := [0; 0; 0; 8] ++ bytes_of_string "ftyp"
              ++ [0; 0; 0; 8] ++ bytes_of_string "moov"
              ++ [0; 0; 0; 12] ++ bytes_of_string "mdat" ++ [1; 2; 3; 4] in
  let ftyp := Box.mk (bytes_of_string "ftyp") 0 8 0 in
  let moov := Box.mk (bytes_of_string "moov") 8 8 0 in
  let mdat := Box.mk (bytes_of_string "mdat") 16 8 4 in
  let extra := Box.mk (bytes_of_string "free") 0 8 100 in
  let c := Mpeg4Container.mk [ftyp; moov; mdat]
             (Some 1%nat) None (Some 2%nat) (Some 0%nat) 24 28 in
  Mpeg4Container.save_delta (fun s => s)
    (Mpeg4Container.set_contents [ftyp; moov; mdat; extra] c) = 0.
Proof.
  intros file ftyp moov mdat extra c.
  assert (Hload : Mpeg4Container.load plain_box_load 5 (IO.mkIn file 28)
                  = Done (Some c)).
  { vm_compute. reflexivity. }
  destruct (save_delta_zero_when_prefix_kept plain_box_load (fun s => s)
              (fun _ i o _ => (i, o)) 5 (IO.mkIn file 28) c
              (Mpeg4Container.set_contents [ftyp; moov; mdat; extra] c)
              [ftyp; moov; mdat] [] [ftyp; moov; mdat] [extra]
              (IO.mkIn file 0) [] plain_box_load_position Hload)
    as [Hd _].
  - reflexivity.
  - exists mdat. split; [cbn; auto | reflexivity].
  - reflexivity.
  - repeat constructor.
  - reflexivity.
  - exact Hd.
Defined.

(** X12.  The [int32_t] a child's [save] receives is the exact signed
    shift of the media-data start whenever that shift fits 32 signed
    bits: the new start minus the load-time position, negative when the
    leading boxes have shrunk. *)
Theorem save_delta_signed_exact
  (resize : Mpeg4Container.t -> Mpeg4Container.t)
  (self : Mpeg4Container.t) :
  let c := resize self in
  let iNewPos := Mpeg4Container.new_pos (Mpeg4Container.m_listContents c) 0 in
  - 2 ^ 31 <= iNewPos - Mpeg4Container.m_iFirstMDatPos c < 2 ^ 31 ->
  Int.i32 (Mpeg4Container.save_delta resize self)
  = iNewPos - Mpeg4Container.m_iFirstMDatPos c.
Proof.
  intros c iNewPos H. unfold Mpeg4Container.save_delta. cbv zeta.
  fold c. fold iNewPos. now apply i32_u32_signed.
Qed.

(** Media data loaded at offset 100, now starting at offset 8: the
    children receive -92. *)
Lemma save_delta_signed_exact_witness :
  let mdat := Box.mk (bytes_of_string "mdat") 0 8 4 in
  let self := Mpeg4Container.mk [mdat] None None (Some 0%nat) None 100 12 in
  Int.i32 (Mpeg4Container.save_delta (fun c => c) self) = -92.
Proof.
  intros mdat self.
  rewrite (save_delta_signed_exact (fun c => c) self).
  - vm_compute. reflexivity.
  - vm_compute. split; [discriminate | reflexivity].
Defined.

(** X13.  If one box [x] lying before the first media-data box is
    removed after the load and nothing else changes size, the delta of
    [save] is [- size x] in 32-bit arithmetic, and the children receive
    exactly [- size x] as long as [size x] is at most [2^31]. *)
Theorem save_delta_after_removal
  (Box_load : IO.istream -> Z -> Z -> option Box.t)
  (resize : Mpeg4Container.t -> Mpeg4Container.t)
  (fuel : nat) (fs : IO.istream) (c self : Mpeg4Container.t)
  (a b : list Box.t) (x : Box.t) :
  (forall fs iPos iEnd b,
     Box_load fs iPos iEnd = Some b -> Box.m_iPosition b = iPos) ->
  Mpeg4Container.load Box_load fuel fs = Done (Some c) ->
  Mpeg4Container.m_listContents c = a ++ x :: b ->
  none_with is_mdat a -> is_mdat x = false ->
  Mpeg4Container.m_listContents self = a ++ b ->
  Mpeg4Container.m_iFirstMDatPos (resize self)
  = Mpeg4Container.m_iFirstMDatPos c ->
  Forall2 same_layout (Mpeg4Container.m_listContents self)
          (Mpeg4Container.m_listContents (resize self)) ->
  Mpeg4Container.save_delta resize self = Int.u32 (- Box.size x)
  /\ (Box.size x <= 2 ^ 31 ->
      Int.i32 (Mpeg4Container.save_delta resize self) = - Box.size x).
Proof.
  intros Hpos Hload Hc Ha Hx Hself Hfirst Hsame.
  assert (Hd : Mpeg4Container.save_delta resize self = Int.u32 (- Box.size x)).
  { destruct (load_first_mdat_position _ _ _ _ Hpos Hload)
      as (l1 & m & l2 & k & Hl & Hnone & Hm & Hfp).
    rewrite Hc in Hl. symmetry in Hl.
    replace (a ++ x :: b) with ((a ++ [x]) ++ b) in Hl
      by (rewrite <- app_assoc; reflexivity).
    destruct (prefix_before_first is_mdat (a ++ [x]) l1 m l2 b Hl)
      as (b1 & -> & ->).
    { apply none_with_app. split; [exact Ha|]. apply none_with_cons.
      split; [exact Hx | intros ? []]. }
    { exact Hm. }
    unfold Mpeg4Container.save_delta. cbv zeta.
    rewrite <- (new_pos_same_layout _ _ Hsame), Hself, Hfirst, Hfp.
    rewrite app_assoc, new_pos_first_mdat.
    - repeat rewrite sizes_app. cbn [sizes fold_right].
      destruct (u32_decomp (0 + (sizes a + sizes b1) + Box.m_iHeaderSize m))
        as [k' Hk'].
      apply u32_congr with (k := k' - k). rewrite Hk'. lia.
    - apply none_with_app. apply none_with_app in Hnone as [Hn1 Hn2].
      apply none_with_app in Hn1 as [Hn1 _]. auto.
    - exact Hm. }
  split; [exact Hd|].
  intros Hsmall. rewrite Hd. apply i32_u32_signed.
  pose proof (u32_range (Box.m_iHeaderSize x + Box.m_iContentSize x)) as R.
  fold (Box.size x) in R. lia.
Qed.

(** The three-box file saved without its 8-byte [ftyp] box. *)
Lemma save_delta_after_removal_witness :
  let file := [0; 0; 0; 8] ++ bytes_of_string "ftyp"
              ++ [0; 0; 0; 8] ++ bytes_of_string "moov"
              ++ [0; 0; 0; 12] ++ bytes_of_string "mdat" ++ [1; 2; 3; 4] in
  let ftyp := Box.mk (bytes_of_string "ftyp") 0 8 0 in
  let moov := Box.mk (bytes_of_string "moov") 8 8 0 in
  let mdat := Box.mk (bytes_of_string "mdat") 16 8 4 in
  let c := Mpeg4Container.mk [ftyp; moov; mdat]
             (Some 1%nat) None (Some 2%nat) (Some 0%nat) 24 28 in
  Int.i32 (Mpeg4Container.save_delta (fun s => s)
             (Mpeg4Container.set_contents [moov; mdat] c)) = -8.
Proof.
  intros file ftyp moov mdat c.
  assert (Hload : Mpeg4Container.load plain_box_load 5 (IO.mkIn file 28)
                  = Done (Some c)).
  { vm_compute. reflexivity. }
  destruct (save_delta_after_removal plain_box_load (fun s => s) 5
              (IO.mkIn file 28) c
              (Mpeg4Container.set_contents [moov; mdat] c)
              [] [moov; mdat] ftyp plain_box_load_position Hload)
    as [_ Hi].
  - reflexivity.
  - intros ? [].
  - reflexivity.
  - reflexivity.
  - reflexivity.
  - repeat constructor.
  - rewrite Hi; [reflexivity | vm_compute; discriminate].
Defined.

Lemma new_pos_no_mdat l : forall a,
  0 <= a < 2 ^ 32 ->
  none_with is_mdat l ->
  Mpeg4Container.new_pos l a = Int.u32 (a + sizes l).
Proof.
  induction l as [|x r IH]; intros a Ha Hnone;
    cbn [Mpeg4Container.new_pos sizes fold_right].
  - rewrite Z.add_0_r. symmetry. now apply u32_small.
  - apply none_with_cons in Hnone as [Hx Hr].
    change (memcmp (Box.m_name x) constants.TAG_MDAT 4 =? 0) with (is_mdat x).
    rewrite Hx, IH by (try apply u32_range; assumption).
    destruct (u32_decomp (a + Box.size x)) as [k Hk].
    apply u32_congr with (k := k). rewrite Hk.
    change (fold_right (fun b s => Box.size b + s) 0 r) with (sizes r). lia.
Qed.

(** X14.  When no child is tagged [mdat] at save time (the media-data
    box has been taken out of the list), [save] raises no error: the
    first loop runs to the end and the delta is the total size of the
    children minus the load-time position, in 32-bit arithmetic. *)
Theorem save_delta_without_mdat
  (resize : Mpeg4Container.t -> Mpeg4Container.t)
  (self : Mpeg4Container.t) :
  none_with is_mdat (Mpeg4Container.m_listContents (resize self)) ->
  Mpeg4Container.save_delta resize self
  = Int.u32 (sizes (Mpeg4Container.m_listContents (resize self))
             - Mpeg4Container.m_iFirstMDatPos (resize self)).
Proof.
  intros Hnone. unfold Mpeg4Container.save_delta. cbv zeta.
  rewrite new_pos_no_mdat by (try assumption; cbn; lia).
  destruct (u32_decomp (0 + sizes (Mpeg4Container.m_listContents (resize self))))
    as [k Hk].
  apply u32_congr with (k := k). rewrite Hk. lia.
Qed.

(** A container loaded with media data at offset 24 whose list now
    holds an 8-byte [ftyp] and an 8-byte [moov] only. *)
Lemma save_delta_without_mdat_witness :
  let ftyp := Box.mk (bytes_of_string "ftyp") 0 8 0 in
  let moov := Box.mk (bytes_of_string "moov") 8 8 0 in
  let self := Mpeg4Container.mk [ftyp; moov]
                (Some 1%nat) None (Some 2%nat) (Some 0%nat) 24 28 in
  Mpeg4Container.save_delta (fun s => s) self = Int.u32 (16 - 24).
Proof.
  intros ftyp moov self.
  rewrite (save_delta_without_mdat (fun s => s) self).
  - reflexivity.
  - intros b [<-|[<-|[]]]; reflexivity.
Defined.

(** ** Mpeg4Container: print_structure *)

Lemma print_children_spec Box_print l : forall ind cout,
  Z.of_nat (length l) < 2 ^ 32 ->
  Mpeg4Container.print_children Box_print l (Z.of_nat (length l)) ind cout
  = fold_left (fun out bi => Box_print (fst bi) (snd bi) out)
              (combine l (connectors (length l))) cout.
Proof.
  induction l as [|x r IH]; intros ind cout Hlen; [reflexivity|].
  cbn [Mpeg4Container.print_children length].
  replace (Z.of_nat (S (length r)) - 1) with (Z.of_nat (length r)) by lia.
  cbn [length] in Hlen.
  rewrite u32_small by lia.
  destruct r as [|y r].
  - reflexivity.
  - destruct (Z.leb_spec (Z.of_nat (length (y :: r))) 0) as [Hle|Hgt];
      [cbn [length] in Hle; lia|].
    rewrite IH by lia.
    unfold connectors. cbn [length Nat.sub repeat app combine fold_left fst snd].
    rewrite Nat.sub_0_r. reflexivity.
Qed.

(** X15.  [print_structure] writes the line "mpeg4 [content size]" and
    then prints every child in list order, the last child with the
    corner connector and every other child with the tee connector; the
    indent it is called with plays no part. *)
Theorem print_structure_connectors
  (Box_print : Box.t -> string -> string -> string)
  (self : Mpeg4Container.t) (pIndent cout : string) :
  Z.of_nat (length (Mpeg4Container.m_listContents self)) < 2 ^ 32 ->
  Mpeg4Container.print_structure Box_print self pIndent cout
  = fold_left (fun out bi => Box_print (fst bi) (snd bi) out)
      (combine (Mpeg4Container.m_listContents self)
               (connectors (length (Mpeg4Container.m_listContents self))))
      (cout ++ "mpeg4 [" ++ Mpeg4Container.decimal
                              (Mpeg4Container.m_iContentSize self)
            ++ "]" ++ Mpeg4Container.endl)%string.
Proof.
  intros Hlen. unfold Mpeg4Container.print_structure. cbv zeta.
  rewrite u32_small by lia. now apply print_children_spec.
Qed.

(** Three children, each printing its indent and its content size. *)
Lemma print_structure_connectors_witness :
  let pr := fun (b : Box.t) (ind out : string) =>
              (out ++ ind ++ Mpeg4Container.decimal (Box.m_iContentSize b)
               ++ ";")%string in
  let self := Mpeg4Container.mk
                [Box.mk (bytes_of_string "ftyp") 0 8 1;
                 Box.mk (bytes_of_string "moov") 9 8 2;
                 Box.mk (bytes_of_string "mdat") 19 8 3]
                (Some 1%nat) None (Some 2%nat) (Some 0%nat) 27 30 in
  Mpeg4Container.print_structure pr self "" ""
  = ("mpeg4 [30]" ++ Mpeg4Container.endl
     ++ " ├──1; ├──2; └──3;")%string.
Proof.
  intros pr self.
  rewrite (print_structure_connectors pr self "" "").
  - vm_compute. reflexivity.
  - vm_compute. reflexivity.
Defined.

(* ------------------------------------------------------------------ *)
(** ** The beat tracker: detect_beats *)

Section BeatFacts.

Context {sample : Type}.
Variable gt le : sample -> sample -> bool.
Variable garbage : sample.

Lemma is_peak_dominates count : forall j energy num_frames i,
  BeatTracker.is_peak le garbage count j energy num_frames i = true ->
  forall d, j <= d < j + Z.of_nat count ->
    (0 <= i - d ->
     le (BeatTracker.at_index garbage energy i)
        (BeatTracker.at_index garbage energy (i - d)) = false)
    /\ (i + d < num_frames ->
        le (BeatTracker.at_index garbage energy i)
           (BeatTracker.at_index garbage energy (i + d)) = false).
Proof.
  induction count as [|count IH]; intros j energy num_frames i H d Hd; [lia|].
  cbn [BeatTracker.is_peak] in H.
  destruct ((i - j >=? 0) && _) eqn:E1; [discriminate|].
  destruct ((i + j <? num_frames) && _) eqn:E2; [discriminate|].
  destruct (Z.eq_dec d j) as [->|Hne].
  - apply andb_false_iff in E1, E2. split; intros Hb.
    + destruct E1 as [E1|E1]; [|exact E1].
      destruct (Z.geb_spec (i - j) 0); [discriminate | lia].
    + destruct E2 as [E2|E2]; [|exact E2].
      apply Z.ltb_ge in E2. lia.
  - apply (IH (j + 1) energy num_frames i H). lia.
Qed.

Lemma scan_frames_spec count : forall i energy num_frames acc,
  BeatTracker.scan_frames gt le garbage count i energy num_frames acc
  = acc ++ map BeatTracker.beat_time
             (filter (beat_frame gt le garbage energy num_frames)
                     (iota count i)).
Proof.
  induction count as [|count IH]; intros i energy num_frames acc.
  - cbn. now rewrite app_nil_r.
  - cbn [BeatTracker.scan_frames iota filter]. rewrite IH.
    unfold beat_frame at 2.
    destruct (gt _ _ && gt _ _); cbn [andb].
    + destruct (BeatTracker.is_peak _ _ _ _ _ _ _).
      * cbn [map]. now rewrite <- app_assoc.
      * reflexivity.
    + reflexivity.
Qed.

Lemma iota_in k : forall i x, In x (iota k i) -> i <= x < i + Z.of_nat k.
Proof.
  induction k as [|k IH]; intros i x H; [destruct H|].
  cbn [iota] in H. destruct H as [<-|H]; [lia|].
  apply IH in H. lia.
Qed.

Lemma iota_sorted k : forall i, StronglySorted Z.lt (iota k i).
Proof.
  induction k as [|k IH]; intros i; cbn [iota]; constructor.
  - apply IH.
  - apply Forall_forall. intros x Hx. apply iota_in in Hx. lia.
Qed.

Lemma filter_sorted (f : Z -> bool) l :
  StronglySorted Z.lt l -> StronglySorted Z.lt (filter f l).
Proof.
  induction 1 as [|x l Hs IH Hx]; cbn [filter]; [constructor|].
  destruct (f x); [|exact IH].
  constructor; [exact IH|].
  apply Forall_forall. intros y Hy. apply filter_In in Hy as [Hy _].
  rewrite Forall_forall in Hx. now apply Hx.
Qed.

(** The frames [detect_beats] reports, with what the loops established
    about each. *)
Lemma detect_beats_frames energy num_frames :
  exists frames,
    fst (BeatTracker.detect_beats gt le garbage energy num_frames)
    = map BeatTracker.beat_time frames
    /\ snd (BeatTracker.detect_beats gt le garbage energy num_frames)
       = Z.of_nat (length frames)
    /\ StronglySorted Z.lt frames
    /\ forall i, In i frames ->
         1 <= i <= num_frames - 2
         /\ gt (BeatTracker.at_index garbage energy i)
               (BeatTracker.at_index garbage energy (i - 1)) = true
         /\ gt (BeatTracker.at_index garbage energy i)
               (BeatTracker.at_index garbage energy (i + 1)) = true
         /\ dominates le garbage energy num_frames i.
Proof.
  exists (filter (beat_frame gt le garbage energy num_frames)
                 (iota (Z.to_nat (num_frames - 2)) 1)).
  unfold BeatTracker.detect_beats. cbv zeta. cbn [fst snd].
  rewrite scan_frames_spec. cbn [app].
  split; [reflexivity|]. split; [now rewrite length_map|].
  split; [apply filter_sorted, iota_sorted|].
  intros i Hi. apply filter_In in Hi as [Hin Hb].
  apply iota_in in Hin. unfold beat_frame in Hb.
  apply andb_prop in Hb as [Hb Hp]. apply andb_prop in Hb as [Hg1 Hg2].
  split; [lia|]. split; [exact Hg1|]. split; [exact Hg2|].
  intros d Hd. apply (is_peak_dominates _ _ _ _ _ Hp). cbn. lia.
Qed.

End BeatFacts.

(** X16.  Every beat [detect_beats] writes is the time [i * 512 / 1024]
    of a frame [i] with [1 <= i <= num_frames - 2] whose energy is
    greater than that of both neighbours and not below-or-equal any
    existing frame within five frames; beats are written in increasing
    frame order, and their number is at most [num_frames - 2], so the
    output array is never written at index [num_frames - 2] or beyond.
    ([num_frames] is bounded so that [i * 512] fits an [int].) *)
Theorem detect_beats_reports_local_maxima
  {sample : Type} (gt le : sample -> sample -> bool) (garbage : sample)
  (energy : list sample) (num_frames : Z) :
  num_frames <= 4194304 ->
  exists frames,
    fst (BeatTracker.detect_beats gt le garbage energy num_frames)
    = map BeatTracker.beat_time frames
    /\ snd (BeatTracker.detect_beats gt le garbage energy num_frames)
       = Z.of_nat (length frames)
    /\ StronglySorted Z.lt frames
    /\ (forall i, In i frames ->
          1 <= i <= num_frames - 2
          /\ gt (BeatTracker.at_index garbage energy i)
                (BeatTracker.at_index garbage energy (i - 1)) = true
          /\ gt (BeatTracker.at_index garbage energy i)
                (BeatTracker.at_index garbage energy (i + 1)) = true
          /\ dominates le garbage energy num_frames i)
    /\ Z.of_nat (length frames) <= Z.max 0 (num_frames - 2).
Proof.
  intros _.
  destruct (detect_beats_frames gt le garbage energy num_frames)
    as (frames & Hf & Hn & Hs & Hi).
  exists frames. repeat split; try assumption; try (now apply Hi).
  assert (Hb : forall l lo hi,
             StronglySorted Z.lt l ->
             (forall i, In i l -> lo <= i <= hi) ->
             Z.of_nat (length l) <= Z.max 0 (hi - lo + 1)).
  { clear. induction l as [|x l IH]; intros lo hi Hs Hr; cbn [length]; [lia|].
    inversion Hs as [|? ? Hs' Hx]; subst.
    assert (Hxr : lo <= x <= hi) by (apply Hr; now left).
    specialize (IH (x + 1) hi Hs').
    assert (Z.of_nat (length l) <= Z.max 0 (hi - (x + 1) + 1)).
    { apply IH. intros i Hi. rewrite Forall_forall in Hx.
      specialize (Hx i Hi). specialize (Hr i (or_intror Hi)). lia. }
    lia. }
  specialize (Hb frames 1 (num_frames - 2) Hs).
  replace (num_frames - 2 - 1 + 1) with (num_frames - 2) in Hb by lia.
  apply Hb. intros i Hin. now apply Hi.
Qed.

(** Twelve integer energies with peaks at frames 2 and 9. *)
Lemma detect_beats_reports_local_maxima_witness :
  let energy := [0; 1; 5; 1; 0; 0; 0; 1; 2; 7; 2; 0] in
  BeatTracker.detect_beats Z.gtb Z.leb 0 energy 12
  = ([BeatTracker.beat_time 2; BeatTracker.beat_time 9], 2)
  /\ exists frames,
       fst (BeatTracker.detect_beats Z.gtb Z.leb 0 energy 12)
       = map BeatTracker.beat_time frames
       /\ Z.of_nat (length frames) <= 10.
Proof.
  intros energy. split; [vm_compute; reflexivity|].
  destruct (detect_beats_reports_local_maxima Z.gtb Z.leb 0 energy 12)
    as (frames & Hf & _ & _ & _ & Hn); [lia|].
  exists frames. split; [exact Hf | exact Hn].
Defined.

(** X17.  Two beats reported by [detect_beats] are always more than
    five frames apart.  (The comparisons are only asked what IEEE
    comparisons give: of two values that each compare greater than
    something, one is below-or-equal the other.) *)
Theorem detect_beats_spacing
  {sample : Type} (gt le : sample -> sample -> bool) (garbage : sample)
  (energy : list sample) (num_frames : Z) :
  (forall a b x y,
     gt a x = true -> gt b y = true -> le a b = false -> le b a = true) ->
  num_frames <= 4194304 ->
  exists frames,
    fst (BeatTracker.detect_beats gt le garbage energy num_frames)
    = map BeatTracker.beat_time frames
    /\ forall i i', In i frames -> In i' frames -> i < i' -> 5 < i' - i.
Proof.
  intros Hord _.
  destruct (detect_beats_frames gt le garbage energy num_frames)
    as (frames & Hf & _ & _ & Hi).
  exists frames. split; [exact Hf|].
  intros i i' Hin Hin' Hlt.
  destruct (Z_lt_le_dec 5 (i' - i)) as [Hok|Hclose]; [exact Hok|exfalso].
  destruct (Hi i Hin) as (Hr & Hg & _ & Hdom).
  destruct (Hi i' Hin') as (Hr' & Hg' & _ & Hdom').
  destruct (Hdom (i' - i) ltac:(lia)) as [_ Hup].
  destruct (Hdom' (i' - i) ltac:(lia)) as [Hdown _].
  replace (i + (i' - i)) with i' in Hup by lia.
  replace (i' - (i' - i)) with i in Hdown by lia.
  specialize (Hup ltac:(lia)). specialize (Hdown ltac:(lia)).
  rewrite (Hord _ _ _ _ Hg Hg' Hup) in Hdown. discriminate.
Qed.

(** Peaks at frames 2 and 9 of twelve integer energies are seven
    frames apart; the lower peak at frame 5 is not reported. *)
Lemma detect_beats_spacing_witness :
  let energy := [0; 1; 5; 1; 0; 3; 0; 1; 2; 7; 2; 0] in
  exists frames,
    fst (BeatTracker.detect_beats Z.gtb Z.leb 0 energy 12)
    = map BeatTracker.beat_time frames
    /\ forall i i', In i frames -> In i' frames -> i < i' -> 5 < i' - i.
Proof.
  intros energy.
  apply (detect_beats_spacing Z.gtb Z.leb 0 energy 12).
  - intros a b x y _ _ H. apply Z.leb_gt in H. apply Z.leb_le. lia.
  - lia.
Defined.

Lemma beat_time_lt i j :
  i < j -> (BeatTracker.beat_time i < BeatTracker.beat_time j)%Q.
Proof.
  intros H. unfold BeatTracker.beat_time, BeatTracker.HOP_SIZE,
    BeatTracker.FRAME_SIZE, Qlt, Qdiv, Qmult, Qinv, inject_Z.
  cbn. lia.
Qed.

(** X18.  The beat times [detect_beats] writes are strictly
    increasing. *)
Theorem detect_beats_times_increase
  {sample : Type} (gt le : sample -> sample -> bool) (garbage : sample)
  (energy : list sample) (num_frames : Z) :
  num_frames <= 4194304 ->
  StronglySorted Qlt
    (fst (BeatTracker.detect_beats gt le garbage energy num_frames)).
Proof.
  intros _.
  destruct (detect_beats_frames gt le garbage energy num_frames)
    as (frames & -> & _ & Hs & _).
  induction Hs as [|x l Hs IH Hx]; cbn [map]; constructor; [exact IH|].
  apply Forall_forall. intros t Ht. apply in_map_iff in Ht as (j & <- & Hj).
  rewrite Forall_forall in Hx. apply beat_time_lt. now apply Hx.
Qed.

(** The two beats of the twelve-frame example, at 1 and 4.5. *)
Lemma detect_beats_times_increase_witness :
  StronglySorted Qlt
    (fst (BeatTracker.detect_beats Z.gtb Z.leb 0
            [0; 1; 5; 1; 0; 0; 0; 1; 2; 7; 2; 0] 12)).
Proof.
  apply (detect_beats_times_increase Z.gtb Z.leb 0). lia.
Defined.

(* ------------------------------------------------------------------ *)
(** ** The beat-marker filter: calculate_band_energy *)

Lemma band_loop_spec {real : Type} (add magnitude : real -> real -> real)
                     (garbage : real) (fft_out : list real) (high_bin : Z)
                     (fuel : nat) : forall i energy,
  512 <= i + Z.of_nat fuel ->
  BeatMarker.band_loop add magnitude garbage fuel fft_out high_bin i energy
  = fold_left (add_bin add magnitude garbage fft_out)
              (iota (Z.to_nat (Z.min high_bin 511 - i + 1)) i) energy.
Proof.
  induction fuel as [|fuel IH]; intros i energy Hfuel.
  - cbn [BeatMarker.band_loop].
    replace (Z.to_nat (Z.min high_bin 511 - i + 1)) with O by lia.
    reflexivity.
  - cbn [BeatMarker.band_loop].
    change (BeatMarker.FFT_SIZE / 2) with 512.
    destruct (Z.leb_spec i high_bin) as [H1|H1];
      destruct (Z.ltb_spec i 512) as [H2|H2]; cbn [andb];
      try (replace (Z.to_nat (Z.min high_bin 511 - i + 1)) with O by lia;
           reflexivity).
    rewrite IH by lia.
    replace (Z.to_nat (Z.min high_bin 511 - i + 1))
      with (S (Z.to_nat (Z.min high_bin 511 - (i + 1) + 1))) by lia.
    reflexivity.
Qed.

(** X19.  [calculate_band_energy] adds up, from [0.0] and in ascending
    order, the magnitudes of the bins from [low_bin] to the smaller of
    [high_bin] and 511; every bin [i] it reads satisfies
    [0 <= 2 * i] and [2 * i + 1 < FFT_SIZE], so for a non-negative
    [low_bin] it never reads outside the [FFT_SIZE] values of the
    spectrum, and an empty band gives [0.0]. *)
Theorem calculate_band_energy_bins
  {real : Type} (zero : real) (add magnitude : real -> real -> real)
  (garbage : real) (fft_out : list real) (low_bin high_bin : Z) :
  0 <= low_bin ->
  let bins := iota (Z.to_nat (Z.min high_bin 511 - low_bin + 1)) low_bin in
  BeatMarker.calculate_band_energy zero add magnitude garbage fft_out
                                   low_bin high_bin
  = fold_left (add_bin add magnitude garbage fft_out) bins zero
  /\ (forall i, In i bins ->
        low_bin <= i <= high_bin
        /\ 0 <= 2 * i /\ 2 * i + 1 < BeatMarker.FFT_SIZE)
  /\ (high_bin < low_bin ->
      BeatMarker.calculate_band_energy zero add magnitude garbage fft_out
                                       low_bin high_bin = zero).
Proof.
  intros Hlow bins.
  assert (E : BeatMarker.calculate_band_energy zero add magnitude garbage
                fft_out low_bin high_bin
              = fold_left (add_bin add magnitude garbage fft_out) bins zero).
  { unfold BeatMarker.calculate_band_energy.
    change (BeatMarker.FFT_SIZE / 2) with 512.
    apply band_loop_spec. lia. }
  split; [exact E|]. split.
  - intros i Hi. apply iota_in in Hi.
    change BeatMarker.FFT_SIZE with 1024. lia.
  - intros Hempty. rewrite E. unfold bins.
    replace (Z.to_nat (Z.min high_bin 511 - low_bin + 1)) with O by lia.
    reflexivity.
Qed.

(** The bass band of [detect_beat], bins 1 to 5, on an integer
    spectrum with magnitude [|re| + |im|]. *)
Lemma calculate_band_energy_bins_witness :
  let fft := [9; 9; 1; 0; 0; 2; 3; 0; 0; 4; 5; 0; 9; 9] in
  BeatMarker.calculate_band_energy 0 Z.add
    (fun re im => Z.abs re + Z.abs im) 0 fft 1 5 = 15.
Proof.
  intros fft.
  destruct (calculate_band_energy_bins 0 Z.add
              (fun re im => Z.abs re + Z.abs im) 0 fft 1 5) as [E _].
  - lia.
  - rewrite E. vm_compute. reflexivity.
Defined.

(* ------------------------------------------------------------------ *)
(** ** SA3DBox: what decides the outcome of [load] *)

Lemma load_rejects_tag fs iPos iEnd iSize name fs1 :
  0 <= iPos ->
  SA3DBox.read_header fs iPos = (iSize, name, fs1) ->
  hd 0 name <> 83 ->
  SA3DBox.load fs iPos iEnd = inl SA3DBox.NotSA3D.
Proof.
  intros Hpos Hhdr Hname. unfold SA3DBox.load.
  destruct (iPos <? 0) eqn:E; [apply Z.ltb_lt in E; lia|].
  rewrite Hhdr.
  unfold constants.sizeof_deref_TAG_SA3D. cbn [memcmp].
  change (hd 0 constants.TAG_SA3D) with 83.
  destruct (hd 0 name =? 83) eqn:E1; [apply Z.eqb_eq in E1; contradiction|].
  destruct (0 =? hd 0 name - 83) eqn:E0; [apply Z.eqb_eq in E0; lia|].
  reflexivity.
Qed.

Lemma load_rejects_bounds fs iPos iEnd iSize name fs1 :
  0 <= iPos ->
  SA3DBox.read_header fs iPos = (iSize, name, fs1) ->
  hd 0 name = 83 ->
  iEnd < Int.u32 (iPos + iSize) ->
  SA3DBox.load fs iPos iEnd = inl SA3DBox.ExceedsBounds.
Proof.
  intros Hpos Hhdr Hname Hend. unfold SA3DBox.load.
  destruct (iPos <? 0) eqn:E; [apply Z.ltb_lt in E; lia|].
  rewrite Hhdr.
  unfold constants.sizeof_deref_TAG_SA3D. cbn [memcmp].
  rewrite Hname. change (hd 0 constants.TAG_SA3D) with 83.
  change (83 =? 83) with true. cbv iota. change (0 =? 0) with true.
  cbn [negb].
  destruct (Z.gtb_spec (Int.u32 (iPos + iSize)) iEnd); [reflexivity | lia].
Qed.

(** X20.  When the stream holds, from [iPos], a box in the standard
    header form with all the bytes its channel count announces, the
    outcome of [load] is decided by the header alone: it is the tag error
    exactly when the first tag byte is not 'S' (even if the size is out
    of bounds too), the bounds error exactly when that byte is 'S' and
    the 32-bit sum of position and size exceeds [iEnd], and a box in
    every other case, whatever the content bytes are. *)
Theorem load_outcome (fs : IO.istream) (iPos iEnd : Z) :
  let s := remaining (IO.seekg fs iPos) in
  let iSize := IO.be_combine (firstn 4 s) in
  let tag := hd 0 (skipn 4 s) in
  let count := IO.be_combine (firstn 4 (skipn 16 s)) in
  0 <= iPos ->
  Forall is_byte s ->
  (20 <= length s)%nat ->
  iSize <> 1 ->
  20 + 4 * count <= Z.of_nat (length s) ->
  (SA3DBox.load fs iPos iEnd = inl SA3DBox.NotSA3D <-> tag <> 83)
  /\ (SA3DBox.load fs iPos iEnd = inl SA3DBox.ExceedsBounds
      <-> tag = 83 /\ iEnd < Int.u32 (iPos + iSize))
  /\ ((exists b, SA3DBox.load fs iPos iEnd = inr b)
      <-> tag = 83 /\ Int.u32 (iPos + iSize) <= iEnd).
Proof.
  intros s iSize tag count Hpos Hs H20 Hstd Hlen.
  destruct (field_at 0 4 s ltac:(lia) Hs) as [Esz Rsz].
  cbn [skipn] in Esz, Rsz. fold iSize in Esz, Rsz.
  change (2 ^ (8 * Z.of_nat 4)) with (2 ^ 32) in Rsz.
  set (nm := firstn 4 (skipn 4 s)).
  assert (Hnl : length nm = 4%nat).
  { unfold nm. rewrite length_firstn, length_skipn. lia. }
  assert (Htag : hd 0 nm = tag).
  { unfold nm, tag.
    assert (Hk : (4 <= length (skipn 4 s))%nat) by (rewrite length_skipn; lia).
    destruct (skipn 4 s) as [|x r]; [cbn in Hk; lia|]. reflexivity. }
  assert (Hrem : remaining (IO.seekg fs iPos)
                 = IO.be_split 4 iSize ++ nm ++ skipn 8 s).
  { fold s. rewrite <- Esz. unfold nm.
    change (skipn 8 s) with (skipn (4 + 4) s).
    rewrite <- (skipn_step 4 4 s). symmetry. apply firstn_skipn. }
  destruct (read_header_standard fs iPos iSize nm _ Hpos Rsz Hstd Hnl Hrem)
    as (fs1 & Hh & _ & _).
  rewrite <- Htag.
  assert (Hex : forall r : SA3DBox.load_error + SA3DBox.t,
             (exists b, r = inr b) <-> (forall e, r <> inl e)).
  { intros [e|b]; split.
    - intros [b Hb]. discriminate.
    - intros H. now destruct (H e).
    - intros _ e. discriminate.
    - intros _. now exists b. }
  rewrite Hex.
  destruct (Z.eq_dec (hd 0 nm) 83) as [Hn|Hn].
  - destruct (Z_lt_le_dec iEnd (Int.u32 (iPos + iSize))) as [Hb|Hb].
    + rewrite (load_rejects_bounds fs iPos iEnd iSize nm fs1 Hpos Hh Hn Hb).
      repeat split; intros; try discriminate; try tauto; try lia.
      exfalso. match goal with H : forall e, _ <> _ |- _ =>
                 now apply (H SA3DBox.ExceedsBounds) end.
    + destruct (load_accepts fs iPos iEnd iSize nm fs1 Hpos Hh Hn Hb)
        as (b & -> & _).
      repeat split; intros; try discriminate; try tauto; try lia.
  - rewrite (load_rejects_tag fs iPos iEnd iSize nm fs1 Hpos Hh Hn).
    repeat split; intros; try discriminate; try tauto; try lia.
    all: exfalso; match goal with H : forall e, _ <> _ |- _ =>
                    now apply (H SA3DBox.NotSA3D) end.
Qed.

(** A complete 20-byte box tagged "moov" whose size also exceeds the
    bounds: the tag error is the one reported. *)
Lemma load_outcome_witness :
  SA3DBox.load (IO.mkIn ([0; 0; 0; 200] ++ bytes_of_string "moov"
                         ++ repeat 0 12) 0) 0 20
  = inl SA3DBox.NotSA3D.
Proof.
  destruct (load_outcome (IO.mkIn ([0; 0; 0; 200] ++ bytes_of_string "moov"
                                   ++ repeat 0 12) 0) 0 20) as [[_ H] _].
  - lia.
  - vm_compute. repeat constructor; discriminate.
  - vm_compute. lia.
  - vm_compute. discriminate.
  - vm_compute. discriminate.
  - apply H. vm_compute. discriminate.
Defined.

(* ------------------------------------------------------------------ *)
(** ** Mpeg4Container: the delta of [save] in general *)

(** X21.  Between a load and a save the delta is the growth of what
    precedes the media-data payload: if the first [mdat] child at load
    time is [m] after the children [l1], and at save time it is [m']
    after the children [l1'], the delta is
    [(sizes l1' + header size of m') - (sizes l1 + header size of m)]
    in 32-bit arithmetic. *)
Theorem save_delta_is_prefix_growth
  (Box_load : IO.istream -> Z -> Z -> option Box.t)
  (resize : Mpeg4Container.t -> Mpeg4Container.t)
  (fuel : nat) (fs : IO.istream) (c self : Mpeg4Container.t)
  (l1 l2 l1' l2' : list Box.t) (m m' : Box.t) :
  (forall fs iPos iEnd b,
     Box_load fs iPos iEnd = Some b -> Box.m_iPosition b = iPos) ->
  Mpeg4Container.load Box_load fuel fs = Done (Some c) ->
  Mpeg4Container.m_listContents c = l1 ++ m :: l2 ->
  none_with is_mdat l1 -> is_mdat m = true ->
  Mpeg4Container.m_listContents (resize self) = l1' ++ m' :: l2' ->
  none_with is_mdat l1' -> is_mdat m' = true ->
  Mpeg4Container.m_iFirstMDatPos (resize self)
  = Mpeg4Container.m_iFirstMDatPos c ->
  Mpeg4Container.save_delta resize self
  = Int.u32 ((sizes l1' + Box.m_iHeaderSize m')
             - (sizes l1 + Box.m_iHeaderSize m)).
Proof.
  intros Hpos Hload Hc Hnone Hm Hself Hnone' Hm' Hfirst.
  destruct (load_first_mdat_position _ _ _ _ Hpos Hload)
    as (k1 & n & k2 & k & Hl & Hk1 & Hn & Hfp).
  rewrite Hc in Hl.
  destruct (prefix_before_first is_mdat l1 k1 n k2 (m :: l2)
              (eq_sym Hl) Hnone Hn) as (b1 & E1 & E2).
  destruct b1 as [|y b1].
  2:{ cbn [app] in E2. injection E2 as -> _.
      subst k1. apply none_with_app in Hk1 as [_ Hk1].
      apply none_with_cons in Hk1 as [Hy _]. congruence. }
  cbn [app] in E2. injection E2 as -> _. rewrite app_nil_r in E1. subst k1.
  unfold Mpeg4Container.save_delta. cbv zeta.
  rewrite Hself, Hfirst, Hfp, new_pos_first_mdat by assumption.
  destruct (u32_decomp (0 + sizes l1' + Box.m_iHeaderSize m')) as [k' Hk'].
  apply u32_congr with (k := k' - k). rewrite Hk'. lia.
Qed.

(** The three-box file saved with two boxes of 36 and 16 bytes put in
    front of [moov]: delta 52. *)
Lemma save_delta_is_prefix_growth_witness :
  let file := [0; 0; 0; 8] ++ bytes_of_string "ftyp"
              ++ [0; 0; 0; 8] ++ bytes_of_string "moov"
              ++ [0; 0; 0; 12] ++ bytes_of_string "mdat" ++ [1; 2; 3; 4] in
  let ftyp := Box.mk (bytes_of_string "ftyp") 0 8 0 in
  let moov := Box.mk (bytes_of_string "moov") 8 8 0 in
  let mdat := Box.mk (bytes_of_string "mdat") 16 8 4 in
  let sa3d := Box.mk constants.TAG_SA3D 0 8 28 in
  let free := Box.mk (bytes_of_string "free") 0 8 8 in
  let c := Mpeg4Container.mk [ftyp; moov; mdat]
             (Some 1%nat) None (Some 2%nat) (Some 0%nat) 24 28 in
  Mpeg4Container.save_delta (fun s => s)
    (Mpeg4Container.set_contents [ftyp; sa3d; free; moov; mdat] c) = 52.
Proof.
  intros file ftyp moov mdat sa3d free c.
  assert (Hload : Mpeg4Container.load plain_box_load 5 (IO.mkIn file 28)
                  = Done (Some c)).
  { vm_compute. reflexivity. }
  rewrite (save_delta_is_prefix_growth plain_box_load (fun s => s) 5
             (IO.mkIn file 28) c
             (Mpeg4Container.set_contents [ftyp; sa3d; free; moov; mdat] c)
             [ftyp; moov] [] [ftyp; sa3d; free; moov] [] mdat mdat
             plain_box_load_position Hload).
  - vm_compute. reflexivity.
  - reflexivity.
  - intros b [<-|[<-|[]]]; reflexivity.
  - reflexivity.
  - reflexivity.
  - intros b [<-|[<-|[<-|[<-|[]]]]]; reflexivity.
  - reflexivity.
  - reflexivity.
Defined.
